(** * digitaltwin-lib: message synchronisation and trust engine

    A shallow embedding of the message pipeline of the repository: the
    signature chain of [key.service.ts], the chat aggregate of
    [chat.service.ts], the socket gateway of [chat.gateway.ts], the inbound
    HTTP controller ([MessageController]) and the file-backed message
    service ([editMessage], [editReply], [handleRead]).

    JavaScript values are modelled as the code uses them: numbers as [Z],
    [Date]s as their [getTime()] value, arrays as lists, [undefined]/[null]
    as [None], objects used as dictionaries as [gmap].  Asynchronous
    functions are run to completion in program order; a rejected promise is
    a thrown exception. *)

From Stdlib Require Import ZArith String List Bool Lia.
From stdpp Require Import gmap strings list fin_maps.

Set Warnings "-register-all".
Open Scope string_scope.
Open Scope list_scope.
Open Scope Z_scope.

(** ** JavaScript primitives used by the sources *)

Module Js.

(** [Array.prototype.findIndex]: index of the first element satisfying
    [p], or [-1]. *)
Fixpoint findIndexFrom {A : Type} (p : A -> bool) (l : list A) (i : Z) : Z :=
  match l with
  | [] => -1
  | x :: l' => if p x then i else findIndexFrom p l' (i + 1)
  end.

Definition findIndex {A : Type} (p : A -> bool) (l : list A) : Z :=
  findIndexFrom p l 0.

(** [Array.prototype.indexOf] on strings (strict equality). *)
Definition indexOf (l : list string) (s : string) : Z :=
  findIndex (String.eqb s) l.

(** [Array.prototype.slice(start, end)]: a negative bound counts from the
    end of the array, every bound is clamped to [0 .. length]. *)
Definition relativeIndex (len i : Z) : Z :=
  if i <? 0 then Z.max (len + i) 0 else Z.min i len.

Definition slice {A : Type} (l : list A) (start end_ : Z) : list A :=
  let len := Z.of_nat (length l) in
  let k := relativeIndex len start in
  let final := relativeIndex len end_ in
  firstn (Z.to_nat (final - k)) (skipn (Z.to_nat k) l).

(** Truthiness of a string and of a number. *)
Definition truthyString (s : string) : bool := negb (String.eqb s "").
Definition truthyNumber (n : Z) : bool := negb (n =? 0).

(** Element read [a[i]]: [undefined] outside the array. *)
Definition at_ {A : Type} (l : list A) (i : Z) : option A :=
  if i <? 0 then None else nth_error l (Z.to_nat i).

(** Element write [a[i] = v] for an index produced by [findIndex].  At
    [-1] JavaScript defines the property ["-1"] on the array object: no
    element changes, the length stays, and JSON serialisation drops the
    property.  Inside the array the element is replaced. *)
Definition setAt {A : Type} (l : list A) (i : Z) (v : A) : list A :=
  if i <? 0 then l else <[Z.to_nat i := v]> l.

End Js.

(** ** Data model *)

(** Message kinds named by the sources ([MessageTypes] / [MessageType]);
    the spec's PLAIN is [STRING]. *)
Inductive MessageType : Type :=
  | STRING | SYSTEM | GIF | CONTACT_REQUEST | GROUP_UPDATE | FILE_UPLOAD
  | FILE | FILE_SHARE | EDIT | DELETE | QUOTE | READ.

Definition MessageType_eqb (a b : MessageType) : bool :=
  match a, b with
  | STRING, STRING | SYSTEM, SYSTEM | GIF, GIF
  | CONTACT_REQUEST, CONTACT_REQUEST | GROUP_UPDATE, GROUP_UPDATE
  | FILE_UPLOAD, FILE_UPLOAD | FILE, FILE | FILE_SHARE, FILE_SHARE
  | EDIT, EDIT | DELETE, DELETE | QUOTE, QUOTE | READ, READ => true
  | _, _ => false
  end.

(** Type-specific payload.  [M] is the message type itself: an EDIT carries
    a full replacement message. *)
Inductive Body (M : Type) : Type :=
  | BString (s : string)
  | BMessage (m : M)
  | BUpload (name : string) (parsedFile : string)
  | BFile (filename : option string).
Arguments BString {M} s.
Arguments BMessage {M} m.
Arguments BUpload {M} name parsedFile.
Arguments BFile {M} filename.

Module Message.
Inductive t : Type := mk {
  from : string;
  to : string;
  body : Body t;
  timeStamp : Z;
  id : string;
  type : MessageType;
  replies : list t;
  subject : option string;
  signatures : list string;
  updated : option Z }.

Definition set_from (v : string) (m : t) : t :=
  mk v (to m) (body m) (timeStamp m) (id m) (type m) (replies m)
     (subject m) (signatures m) (updated m).
Definition set_body (v : Body t) (m : t) : t :=
  mk (from m) (to m) v (timeStamp m) (id m) (type m) (replies m)
     (subject m) (signatures m) (updated m).
Definition set_id (v : string) (m : t) : t :=
  mk (from m) (to m) (body m) (timeStamp m) v (type m) (replies m)
     (subject m) (signatures m) (updated m).
Definition set_type (v : MessageType) (m : t) : t :=
  mk (from m) (to m) (body m) (timeStamp m) (id m) v (replies m)
     (subject m) (signatures m) (updated m).
Definition set_replies (v : list t) (m : t) : t :=
  mk (from m) (to m) (body m) (timeStamp m) (id m) (type m) v
     (subject m) (signatures m) (updated m).
Definition set_signatures (v : list string) (m : t) : t :=
  mk (from m) (to m) (body m) (timeStamp m) (id m) (type m) (replies m)
     (subject m) v (updated m).
Definition set_updated (v : option Z) (m : t) : t :=
  mk (from m) (to m) (body m) (timeStamp m) (id m) (type m) (replies m)
     (subject m) (signatures m) v.

(** The payload of a [Message<string>]: a READ receipt carries the id of
    the message it acknowledges. *)
Definition bodyString (m : t) : option string :=
  match body m with BString s => Some s | _ => None end.
End Message.

Module Contact.
Record t : Type := mk { id : string; location : string }.
End Contact.

Inductive KeyType : Type := Public | Private.

Definition KeyType_eqb (a b : KeyType) : bool :=
  match a, b with
  | Public, Public | Private, Private => true
  | _, _ => false
  end.

(** The key entity.  [userId] is [None] in a record that was created
    without a [userId] property. *)
Module Key.
Record t : Type := mk { userId : option string; key : string; keyType : KeyType }.

(** The search term [where('userId').equals(id)]. *)
Definition userIdEquals (id : string) (k : t) : bool :=
  match userId k with
  | Some u => String.eqb u id
  | None => false
  end.
End Key.

(** ** Exceptions and the effect monad *)

Inductive Exn : Type :=
  | TypeError
  | BadRequestException (msg : string)
  | ForbiddenException (msg : string)
  | NotFoundException (msg : string)
  | TransportError (location : string).

Inductive Result (A : Type) : Type :=
  | Ok (a : A)
  | Throw (e : Exn).
Arguments Ok {A} a.
Arguments Throw {A} e.

(** A computation over a store [W]: it returns or throws, and leaves the
    store as it was at that point (nothing is rolled back on a throw). *)
Definition M (W A : Type) : Type := W -> Result A * W.

Definition ret {W A : Type} (a : A) : M W A := fun w => (Ok a, w).
Definition throw {W A : Type} (e : Exn) : M W A := fun w => (Throw e, w).
Definition bind {W A B : Type} (c : M W A) (k : A -> M W B) : M W B :=
  fun w => match c w with
           | (Ok a, w') => k a w'
           | (Throw e, w') => (Throw e, w')
           end.
Definition gets {W A : Type} (f : W -> A) : M W A := fun w => (Ok (f w), w).
Definition modify {W : Type} (f : W -> W) : M W unit := fun w => (Ok tt, f w).

Notation "'let*' x ':=' c 'in' k" := (bind c (fun x => k))
  (at level 10, x name, c at level 100, k at level 200).

(** Property access on a value that may be [null]/[undefined]. *)
Definition deref {W A : Type} (o : option A) : M W A :=
  match o with
  | Some a => ret a
  | None => throw TypeError
  end.

(** [Promise.all] over calls that have all been started: every branch
    runs to its end, whatever becomes of the others. *)
Fixpoint settleAll {W A : Type} (cs : list (M W A)) (w : W)
  : list (Result A) * W :=
  match cs with
  | [] => ([], w)
  | c :: cs' =>
      let (r, w1) := c w in
      let (rs, w2) := settleAll cs' w1 in
      (r :: rs, w2)
  end.

Fixpoint fulfilled {A : Type} (rs : list (Result A)) : list A :=
  match rs with
  | [] => []
  | Ok a :: rs' => a :: fulfilled rs'
  | Throw _ :: rs' => fulfilled rs'
  end.

Fixpoint rejected {A : Type} (rs : list (Result A)) : list Exn :=
  match rs with
  | [] => []
  | Ok _ :: rs' => rejected rs'
  | Throw e :: rs' => e :: rejected rs'
  end.

(** The promise of [Promise.all] is fulfilled with the list of values when
    every branch is; otherwise it is rejected with the rejection that
    settles first in time, which the order of the array does not decide.
    [settlesFirst] names that rejection by its position among the
    rejections (listed in array order); a position beyond the list stands
    for the first of them. *)
Definition promiseAll {W A : Type} (settlesFirst : list Exn -> nat)
           (cs : list (M W A)) : M W (list A) :=
  fun w =>
    let (rs, w') := settleAll cs w in
    match rejected rs with
    | [] => (Ok (fulfilled rs), w')
    | e :: es => (Throw (nth (settlesFirst (e :: es)) (e :: es) e), w')
    end.

(** ** The NestJS services *)

Module Nest.

(** The chat entity, with the fields [createChat] stores. *)
Module Chat.
Record t : Type := mk {
  entityId : string;
  chatId : string;
  name : string;
  contacts : list Contact.t;
  messages : list Message.t;
  acceptedChat : bool;
  adminId : string;
  read : list string;
  isGroup : bool;
  draft : list Message.t }.

Definition set_messages (v : list Message.t) (c : t) : t :=
  mk (entityId c) (chatId c) (name c) (contacts c) v (acceptedChat c)
     (adminId c) (read c) (isGroup c) (draft c).
Definition set_read (v : list string) (c : t) : t :=
  mk (entityId c) (chatId c) (name c) (contacts c) (messages c)
     (acceptedChat c) (adminId c) v (isGroup c) (draft c).
Definition set_contacts (v : list Contact.t) (c : t) : t :=
  mk (entityId c) (chatId c) (name c) v (messages c) (acceptedChat c)
     (adminId c) (read c) (isGroup c) (draft c).
End Chat.

Module BlockedContact.
Record t : Type := mk { id : string }.
End BlockedContact.

(** Everything the services read or write: the configuration value
    [userId], the three repositories, the pending-contact store, the
    transport (every delivery attempted, and the locations that are
    unreachable) and the events emitted to the connected sockets. *)
Record World : Type := mkWorld {
  userId : string;
  keyRepo : list Key.t;
  chatRepo : list Chat.t;
  blockedRepo : list BlockedContact.t;
  contactRepo : list Contact.t;
  outbox : list (string * option Message.t);
  unreachable : list string;
  emitted : list (string * option Message.t) }.

Definition withKeyRepo (v : list Key.t) (w : World) : World :=
  mkWorld (userId w) v (chatRepo w) (blockedRepo w) (contactRepo w)
          (outbox w) (unreachable w) (emitted w).
Definition withChatRepo (v : list Chat.t) (w : World) : World :=
  mkWorld (userId w) (keyRepo w) v (blockedRepo w) (contactRepo w)
          (outbox w) (unreachable w) (emitted w).
Definition withContactRepo (v : list Contact.t) (w : World) : World :=
  mkWorld (userId w) (keyRepo w) (chatRepo w) (blockedRepo w) v
          (outbox w) (unreachable w) (emitted w).
Definition withOutbox (v : list (string * option Message.t)) (w : World) : World :=
  mkWorld (userId w) (keyRepo w) (chatRepo w) (blockedRepo w) (contactRepo w)
          v (unreachable w) (emitted w).
Definition withEmitted (v : list (string * option Message.t)) (w : World) : World :=
  mkWorld (userId w) (keyRepo w) (chatRepo w) (blockedRepo w) (contactRepo w)
          (outbox w) (unreachable w) v.

(** Collaborators whose code is outside the sources at hand: the
    encryption service, the public-key fetch of the API service, the
    message service and the two registered message-state handlers; and
    the timing of the network, [settlesFirst], which decides the failed
    delivery that a group of concurrent sends reports. *)
Record Services : Type := mkServices {
  createBase64Signature : Message.t -> string -> string;
  verifySignature : Message.t -> string -> string -> bool;
  getContactPublicKey : string -> option string;
  determineChatID : string -> Message.t -> string;
  verifySignedMessage :
    bool -> option Contact.t -> option Contact.t -> Message.t -> M World bool;
  contactRequestHandle : Message.t -> Chat.t -> M World unit;
  systemHandle : Message.t -> Chat.t -> M World unit;
  settlesFirst : list Exn -> nat }.

(** Modelled from the spec: [ApiService.sendMessageToApi] is the transport
    call [sendToLocation(location, payload) -> ack|error].  The attempt is
    recorded; it fails when the location is unreachable. *)
Definition sendMessageToApi (location : string) (message : option Message.t)
  : M World unit :=
  fun w =>
    let w' := withOutbox (outbox w ++ [(location, message)]) w in
    if existsb (String.eqb location) (unreachable w)
    then (Throw (TransportError location), w')
    else (Ok tt, w').

(** Modelled from the spec: [BlockedContactService.getBlockedContactList]
    is the paginated call [listBlocked(offset, count)]: [count] entries of
    the blocked-contact store, starting at [offset]. *)
Definition getBlockedContactList (offset count : nat)
  : M World (list BlockedContact.t) :=
  gets (fun w => firstn count (skipn offset (blockedRepo w))).

(** [Repository.save]: the entity with the same entity id is replaced;
    an unknown entity is added. *)
Fixpoint saveEntity (c : Chat.t) (l : list Chat.t) : list Chat.t :=
  match l with
  | [] => [c]
  | x :: l' =>
      if String.eqb (Chat.entityId x) (Chat.entityId c)
      then c :: l'
      else x :: saveEntity c l'
  end.

Definition save (c : Chat.t) : M World string :=
  fun w => (Ok (Chat.entityId c), withChatRepo (saveEntity c (chatRepo w)) w).

Section WithServices.
Context (svc : Services).

(** *** key.service.ts *)

(** The entity is created from [{ userID, key, keyType }]: the contact id
    goes into a property [userID], which is not the [userId] the searches
    below read, so that the record carries no [userId]. *)
Definition addContactPublicKey (key userID : string) : M World Key.t :=
  let k := Key.mk None key Public in
  let* _ := modify (fun w => withKeyRepo (keyRepo w ++ [k]) w) in
  ret k.

Definition getKey (keyType : KeyType) : M World (option Key.t) :=
  gets (fun w =>
          find (fun k => Key.userIdEquals (userId w) k
                         && KeyType_eqb (Key.keyType k) keyType)
               (keyRepo w)).

Definition getPublicKeyByUserID (userID : string) : M World (option Key.t) :=
  gets (fun w =>
          find (fun k => Key.userIdEquals userID k
                         && KeyType_eqb (Key.keyType k) Public)
               (keyRepo w)).

(** [None] is the [undefined] of the bare [return;]. *)
Definition appendSignatureToMessage (message : Message.t)
  : M World (option Message.t) :=
  let* k := getKey Private in
  let* k := deref k in
  let key := Key.key k in
  if negb (Js.truthyString key) then ret None
  else
    let signature := createBase64Signature svc message key in
    ret (Some (Message.set_signatures
                 (signature :: Message.signatures message) message)).

Definition verifyMessageSignature (contact : Contact.t) (message : Message.t)
           (signature : string) : M World bool :=
  let signatureIdx :=
    Js.findIndex (fun s => String.eqb s signature) (Message.signatures message) in
  if negb (Js.truthyNumber signatureIdx) then ret false
  else
    let* k := getPublicKeyByUserID (Contact.id contact) in
    let* k := deref k in
    let verify (key : string) : M World bool :=
      let messageWithoutSignature :=
        Message.set_signatures
          (Js.slice (Message.signatures message) (signatureIdx + 1)
                    (Z.of_nat (length (Message.signatures message))))
          message in
      ret (verifySignature svc messageWithoutSignature signature key) in
    if negb (Js.truthyString (Key.key k)) then
      match getContactPublicKey svc (Contact.location contact) with
      | None => ret false
      | Some base64key =>
          if negb (Js.truthyString base64key) then ret false
          else
            let* _ := addContactPublicKey base64key (Contact.id contact) in
            verify base64key
      end
    else verify (Key.key k).

(** *** chat.service.ts *)

Definition getChat (chatId : string) : M World (option Chat.t) :=
  gets (fun w => find (fun c => String.eqb (Chat.chatId c) chatId) (chatRepo w)).

(** [page] and [from] are [number | null] and [string | null]. *)
Definition getChatMessages (chatId : string) (from : option string)
           (page : option Z) (limit : Z) : M World (bool * list Message.t) :=
  let* chat := getChat chatId in
  let* chat := deref chat in
  let parsedMessages := Chat.messages chat in
  let len := Z.of_nat (length parsedMessages) in
  let cursorEnd :=
    match from with
    | Some f =>
        if Js.truthyString f
        then Js.findIndex (fun m => String.eqb (Message.id m) f) parsedMessages
        else len
    | None => len
    end in
  let end_ :=
    match page with
    | Some p => if Js.truthyNumber p then len - p * limit else cursorEnd
    | None => cursorEnd
    end in
  let start := end_ - limit in
  ret (negb (start =? 0), Js.slice parsedMessages start end_).

Definition addMessageToChat (chat : Chat.t) (message : Message.t)
  : M World string :=
  save (Chat.set_messages (Chat.messages chat ++ [message]) chat).

(** The parameter is a [MessageDTO<string>]: the body is the id of the
    message that was read.  A payload of another shape is outside the
    parameter type and is cut off with a [TypeError]. *)
Definition handleMessageRead (message : Message.t) : M World (option string) :=
  let* uid := gets userId in
  let chatId := determineChatID svc uid message in
  let* chat := getChat chatId in
  let* chat := deref chat in
  let chatMessages := Chat.messages chat in
  let* body := deref (Message.bodyString message) in
  let newRead := find (fun m => String.eqb (Message.id m) body) chatMessages in
  let oldIdx := Js.indexOf (Chat.read chat) (Message.from message) in
  if oldIdx >? -1 then
    let oldRead :=
      match Js.at_ (Chat.read chat) oldIdx with
      | Some r => find (fun m => String.eqb (Message.id m) r) chatMessages
      | None => None
      end in
    let* newRead := deref newRead in
    let* oldRead := deref oldRead in
    if negb (Message.timeStamp newRead <? Message.timeStamp oldRead) then
      let* entity := save (Chat.set_read (Js.setAt (Chat.read chat) oldIdx body) chat) in
      ret (Some entity)
    else ret None
  else ret None.

(** [appendSignatureToMessage] prepends the signature to the array of
    the very [message] object the caller holds; the function therefore
    returns that object as it is when the call ends. *)
Definition handleGroupAdmin (chat : Chat.t) (message : Message.t)
  : M World Message.t :=
  let contacts := Chat.contacts chat in
  let* validSignature :=
    verifySignedMessage svc false None
      (find (fun c => String.eqb (Contact.id c) (Message.from message)) contacts)
      message in
  if negb validSignature
  then throw (BadRequestException "failed to verify message signature")
  else
    let* signedMessage := appendSignatureToMessage message in
    let message' := match signedMessage with Some m => m | None => message end in
    let* userId := gets userId in
    let receivingContacts :=
      List.filter (fun c => negb (String.eqb (Contact.id c) userId)) contacts in
    let* _ :=
      promiseAll (settlesFirst svc)
        (List.map (fun c => sendMessageToApi (Contact.location c) signedMessage)
                  receivingContacts) in
    ret message'.

(** *** chat.gateway.ts *)

Definition emitMessageToConnectedClients (event : string)
           (message : option Message.t) : M World unit :=
  modify (fun w => withEmitted (emitted w ++ [(event, message)]) w).

(** A call whose promise is not awaited: its effects happen, its
    outcome is not seen by the caller. *)
Definition notAwaited {A : Type} (c : M World A) : M World unit :=
  fun w => let (_, w') := c w in (Ok tt, w').

(** *** The message-state handlers registered by [MessageController] *)

Definition messageStateHandlers (t : MessageType)
  : option (Message.t -> Chat.t -> M World unit) :=
  match t with
  | CONTACT_REQUEST => Some (contactRequestHandle svc)
  | SYSTEM => Some (systemHandle svc)
  | _ => None
  end.

End WithServices.

Module ChatGateway.
Definition handleIncomingMessage (svc : Services) (message : Message.t)
  : M World (option string) :=
  let* uid := gets userId in
  let message := Message.set_from uid message in
  let* signedMessage := appendSignatureToMessage svc message in
  let message := match signedMessage with Some m => m | None => message end in
  let* chat :=
    getChat (Message.from message ++ "-" ++ Message.to message)%string in
  match chat with
  | None => ret None
  | Some chat =>
      let* signedMessage := deref signedMessage in
      let signedMessage := Message.set_id (Message.id message) signedMessage in
      if MessageType_eqb (Message.type signedMessage) READ then
        let* _ := emitMessageToConnectedClients "message" (Some signedMessage) in
        handleMessageRead svc signedMessage
      else
        let* _ := emitMessageToConnectedClients "message" (Some signedMessage) in
        let* _ := notAwaited (addMessageToChat chat signedMessage) in
        ret None
  end.
End ChatGateway.

Module MessageController.
(** The admission part of [handleIncomingMessage] (lines 50-58): the
    blocked-contact check, the chat lookup and the SYSTEM check.  It
    yields the resolved chat. *)
Definition admission (svc : Services) (message : Message.t) (offset count : nat)
  : M World (option Chat.t) :=
  let* blockedContacts := getBlockedContactList offset count in
  let isBlocked :=
    find (fun c => String.eqb (BlockedContact.id c) (Message.from message))
         blockedContacts in
  match isBlocked with
  | Some _ => throw (ForbiddenException "blocked")
  | None =>
      let* uid := gets userId in
      let chatId := determineChatID svc uid message in
      let* chat := getChat chatId in
      if MessageType_eqb (Message.type message) SYSTEM then
        let* c := deref chat in
        if negb (String.eqb (Chat.adminId c) (Message.from message))
        then throw (ForbiddenException "not allowed")
        else ret chat
      else ret chat
  end.

(** The rest (lines 60-63): group fan-out by the admin, then dispatch
    to the handler registered for the message type. *)
Definition dispatch (svc : Services) (message : Message.t)
           (chat : option Chat.t) : M World unit :=
  let* userId := gets userId in
  let* c := deref chat in
  let* message :=
    if Chat.isGroup c && String.eqb (Chat.adminId c) userId
    then handleGroupAdmin svc c message
    else ret message in
  let* handler := deref (messageStateHandlers svc (Message.type message)) in
  handler message c.

Definition handleIncomingMessage (svc : Services) (message : Message.t)
           (offset count : nat) : M World unit :=
  let* chat := admission svc message offset count in
  dispatch svc message chat.
End MessageController.
End Nest.

(** ** The file-backed message service *)

Module Legacy.

Module Chat.
Record t : Type := mk {
  chatId : string;
  name : string;
  contacts : list Contact.t;
  messages : list Message.t;
  adminId : string;
  isGroup : bool;
  acceptedChat : bool;
  read : gmap string string;
  draft : list Message.t }.

Definition set_messages (v : list Message.t) (c : t) : t :=
  mk (chatId c) (name c) (contacts c) v (adminId c) (isGroup c)
     (acceptedChat c) (read c) (draft c).
Definition set_read (v : gmap string string) (c : t) : t :=
  mk (chatId c) (name c) (contacts c) (messages c) (adminId c) (isGroup c)
     (acceptedChat c) v (draft c).
End Chat.

(** The chat files by chat id, the connected sockets, and the events sent
    to them. *)
Record World : Type := mkWorld {
  chats : gmap string Chat.t;
  connections : list string;
  events : list (string * string * Message.t) }.

Definition withChats (v : gmap string Chat.t) (w : World) : World :=
  mkWorld v (connections w) (events w).
Definition withEvents (v : list (string * string * Message.t)) (w : World) : World :=
  mkWorld (chats w) (connections w) v.

(** Modelled from the spec: [dataService.getChat] is the keyed-store
    lookup [resolve(chatId) -> Chat | NotFound]. *)
Definition getChat (chatId : string) : M World Chat.t :=
  fun w => match chats w !! chatId with
           | Some c => (Ok c, w)
           | None => (Throw (NotFoundException chatId), w)
           end.

(** Modelled from the spec: [dataService.persistChat] is the keyed-store
    write [save(entity)], under the chat's own id. *)
Definition persistChat (chat : Chat.t) : M World unit :=
  modify (fun w => withChats (<[Chat.chatId chat := chat]> (chats w)) w).

Definition sendEventToConnectedSockets (event : string) (body : Message.t)
  : M World unit :=
  modify (fun w =>
            withEvents
              (events w ++ List.map (fun connection => (connection, event, body))
                                    (connections w)) w).

(** [parseMessage] rebuilds a message from its JSON form, replies
    included; a FILE_UPLOAD becomes a FILE that keeps the file name only.
    (Its write of the uploaded bytes goes to the file store, which is
    not part of the chat state.) *)
Fixpoint parseMessage (msg : Message.t) : Message.t :=
  match msg with
  | Message.mk from to body timeStamp id type replies subject signatures updated =>
      let replies := List.map parseMessage replies in
      match type with
      | FILE_UPLOAD =>
          let filename :=
            match body with BUpload name _ => Some name | _ => None end in
          Message.mk from to (BFile filename) timeStamp id FILE replies
                     subject signatures updated
      | _ =>
          Message.mk from to body timeStamp id type replies
                     subject signatures updated
      end
  end.

(** [mes.id === newMessage.subject], the subject being optional. *)
Definition isSubject (subject : option string) (mes : Message.t) : bool :=
  match subject with
  | Some s => String.eqb (Message.id mes) s
  | None => false
  end.

Definition truthySubject (subject : option string) : bool :=
  match subject with
  | Some s => Js.truthyString s
  | None => false
  end.

(** [now] is the value of [new Date()] at the call. *)
Definition editReply (now : Z) (chatId : string) (newMessage : Message.t)
  : M World unit :=
  let* chat := getChat chatId in
  let messageIndex :=
    Js.findIndex (isSubject (Message.subject newMessage)) (Chat.messages chat) in
  if messageIndex =? -1 then ret tt
  else
    let* target := deref (Js.at_ (Chat.messages chat) messageIndex) in
    let replyIndex :=
      Js.findIndex (fun r => String.eqb (Message.id r) (Message.id newMessage))
                   (Message.replies target) in
    if replyIndex =? -1 then ret tt
    else
      let* reply := deref (Js.at_ (Message.replies target) replyIndex) in
      let reply := Message.set_body (Message.body newMessage) reply in
      let reply := Message.set_updated (Some now) reply in
      let target :=
        Message.set_replies (Js.setAt (Message.replies target) replyIndex reply)
                            target in
      persistChat
        (Chat.set_messages (Js.setAt (Chat.messages chat) messageIndex target) chat).

Definition editMessage (now : Z) (chatId : string) (newMessage : Message.t)
  : M World unit :=
  if truthySubject (Message.subject newMessage) then editReply now chatId newMessage
  else
    let* chat := getChat chatId in
    let* chat :=
      match Message.type newMessage with
      | DELETE =>
          let index :=
            Js.findIndex (fun mes => String.eqb (Message.id mes) (Message.id newMessage))
                         (Chat.messages chat) in
          let* target := deref (Js.at_ (Chat.messages chat) index) in
          let target := Message.set_body (Message.body newMessage) target in
          let target := Message.set_type DELETE target in
          ret (Chat.set_messages (Js.setAt (Chat.messages chat) index target) chat)
      | EDIT =>
          match Message.body newMessage with
          | BMessage raw =>
              let editedMessage := parseMessage raw in
              let index :=
                Js.findIndex
                  (fun mes => String.eqb (Message.id mes) (Message.id editedMessage))
                  (Chat.messages chat) in
              ret (Chat.set_messages
                     (Js.setAt (Chat.messages chat) index editedMessage) chat)
          | _ =>
              (* the parsed body has no id: no stored message matches,
                 the index is -1 *)
              ret chat
          end
      | _ => ret chat
      end in
    persistChat chat.

Section WithRoutes.
(** [determineChatId] of the messages route. *)
Context (determineChatId : Message.t -> string).

(** [chat.read] is a plain object used as a map from the sender to the
    id of the message read last; the map holds its own entries.  The
    assignment [o[key] = value] of a string writes the own entry of [key],
    with one exception: the key "__proto__", when the object has no own
    entry of that name, reaches the setter inherited from
    [Object.prototype], which ignores a value that is no object. *)
Definition setProperty (key value : string) (o : gmap string string)
  : gmap string string :=
  match o !! key with
  | Some _ => <[key := value]> o
  | None => if String.eqb key "__proto__" then o else <[key := value]> o
  end.

(** The parameter is a [Message<StringMessageTypeInterface>]; a payload
    of another shape is outside the parameter type and is cut off with
    a [TypeError].  [chat.read[from]] is the own entry of the sender where
    there is one; without one it is [undefined] or a member inherited from
    [Object.prototype], and no message has either for its id. *)
Definition handleRead (message : Message.t) : M World unit :=
  let chatId := determineChatId message in
  let* chat := getChat chatId in
  let* body := deref (Message.bodyString message) in
  let newRead :=
    find (fun m => String.eqb (Message.id m) body) (Chat.messages chat) in
  let oldRead :=
    match Chat.read chat !! Message.from message with
    | Some r => find (fun m => String.eqb (Message.id m) r) (Chat.messages chat)
    | None => None
    end in
  let stale :=
    match oldRead, newRead with
    | Some o, Some n => Message.timeStamp n <? Message.timeStamp o
    | _, _ => false
    end in
  if stale then ret tt
  else
    let chat := Chat.set_read (setProperty (Message.from message) body (Chat.read chat)) chat in
    let* _ := persistChat chat in
    sendEventToConnectedSockets "message" message.
End WithRoutes.
End Legacy.

(** ** Concrete collaborators and stores for the closed examples *)

Module Scenario.
Import Nest.

(** A keyed digest in the place of the signature scheme: it is
    deterministic, covers the sender, the recipient, the id, the body and
    the signatures already present, and verifies under the key it was
    made with. *)
Definition bodyText (b : Body Message.t) : string :=
  match b with
  | BString s => s
  | BMessage m => Message.id m
  | BUpload name _ => name
  | BFile (Some name) => name
  | BFile None => ""
  end.

Definition canonical (m : Message.t) : string :=
  String.concat "|"
    [Message.id m; Message.from m; Message.to m; bodyText (Message.body m);
     String.concat "," (Message.signatures m)].

Definition createBase64Signature (data : Message.t) (secretKey : string) : string :=
  String.concat ":" ["sig"; secretKey; canonical data].

Definition verifySignature (data : Message.t) (signature publicKey : string) : bool :=
  String.eqb signature (createBase64Signature data publicKey).

(** The chat of a message: the sender for a message addressed to the
    local user, the addressee otherwise. *)
Definition determineChatID (userId : string) (m : Message.t) : string :=
  if String.eqb (Message.to m) userId then Message.from m else Message.to m.

(** Signature verification by the message service, here passing for every
    sender that is a contact of the chat. *)
Definition verifySignedMessage (isGroup : bool) (adminContact fromContact : option Contact.t)
           (signedMessage : Message.t) : M World bool :=
  ret (match fromContact with Some _ => true | None => false end).

(** Modelled from the spec: the CONTACT_REQUEST handler creates a pending
    Contact record tied to the sender and creates no Chat. *)
Definition contactRequestHandle (message : Message.t) (chat : Chat.t) : M World unit :=
  modify (fun w =>
            withContactRepo
              (contactRepo w
                 ++ [Contact.mk (Message.from message) (bodyText (Message.body message))])
              w).

Definition systemHandle (message : Message.t) (chat : Chat.t) : M World unit :=
  ret tt.

Definition services : Services :=
  mkServices createBase64Signature verifySignature (fun _ => None)
             determineChatID verifySignedMessage contactRequestHandle systemHandle
             (fun _ => 0%nat).

Definition message (from to id : string) (type : MessageType) (body : string)
           (timeStamp : Z) : Message.t :=
  Message.mk from to (BString body) timeStamp id type [] None [] None.

(** Alice's node, holding her private key, and Bob's node, which has
    cached her public key. *)
Definition aliceNode : World :=
  mkWorld "alice" [Key.mk (Some "alice") "key-of-alice" Private] [] [] [] [] [] [].

Definition bobNode : World :=
  mkWorld "bob"
          [Key.mk (Some "bob") "key-of-bob" Private; Key.mk (Some "alice") "key-of-alice" Public]
          [] [] [] [] [] [].

Definition alice : Contact.t := Contact.mk "alice" "loc-alice".

Definition hello : Message.t := message "alice" "bob" "m1" STRING "hi" 100.

(** A node whose private-key record carries no key material. *)
Definition keylessNode : World :=
  mkWorld "alice" [Key.mk (Some "alice") "" Private] [] [] [] [] [] [].


(** A node that has blocked "mallory" after having accepted a 1:1 chat
    with that contact. *)
Definition mallory : Contact.t := Contact.mk "mallory" "loc-mallory".

Definition malloryChat : Chat.t :=
  Chat.mk "e1" "mallory" "mallory" [mallory; Contact.mk "me" "loc-me"] []
          true "mallory" [] false [].

Definition blockingNode : World :=
  mkWorld "me" [Key.mk (Some "me") "key-of-me" Private] [malloryChat]
          [BlockedContact.mk "mallory"] [] [] [] [].

(** The same node with twenty-five earlier entries in the blocked list. *)
Definition earlierBlocked : list BlockedContact.t :=
  List.map (fun n => BlockedContact.mk (String.concat "-" ["spam"; n]))
           ["a"; "b"; "c"; "d"; "e"; "f"; "g"; "h"; "i"; "j"; "k"; "l"; "m";
            "n"; "o"; "p"; "q"; "r"; "s"; "t"; "u"; "v"; "w"; "x"; "y"].

Definition crowdedNode : World :=
  mkWorld "me" [Key.mk (Some "me") "key-of-me" Private] [malloryChat]
          (earlierBlocked ++ [BlockedContact.mk "mallory"]) [] [] [] [].

Definition contactRequest : Message.t :=
  message "mallory" "me" "r1" CONTACT_REQUEST "loc-mallory" 50.

(** The group of the spec's scenario: admin "m0" (the local node) and
    members "m0", "m1", "m2"; the location of "m2" is unreachable. *)
Definition m0 : Contact.t := Contact.mk "m0" "loc-m0".
Definition m1 : Contact.t := Contact.mk "m1" "loc-m1".
Definition m2 : Contact.t := Contact.mk "m2" "loc-m2".

Definition group : Chat.t :=
  Chat.mk "e7" "g1" "group" [m0; m1; m2] [] true "m0" [] true [].

Definition adminNode : World :=
  mkWorld "m0" [Key.mk (Some "m0") "key-of-m0" Private] [group] [] [] []
          ["loc-m2"] [].

Definition plainFromM1 : Message.t := message "m1" "g1" "p1" STRING "hello" 70.

Definition systemFromM1 : Message.t :=
  message "m1" "g1" "s1" SYSTEM "remove m2" 80.

(** A 1:1 chat with two messages and no read entry, and the two READ
    receipts of the local user for them. *)
Definition first : Message.t := message "bob" "me" "msg-1" STRING "one" 100.
Definition second : Message.t := message "bob" "me" "msg-2" STRING "two" 200.

Definition bobChat (read : list string) : Chat.t :=
  Chat.mk "e3" "bob" "bob" [Contact.mk "bob" "loc-bob"; Contact.mk "me" "loc-me"]
          [first; second] true "bob" read false [].

Definition readerNode (read : list string) : World :=
  mkWorld "me" [Key.mk (Some "me") "key-of-me" Private] [bobChat read] [] [] [] [] [].

Definition readFirst : Message.t := message "me" "bob" "r-1" READ "msg-1" 300.
Definition readSecond : Message.t := message "me" "bob" "r-2" READ "msg-2" 301.

(** A chat of five messages, oldest first. *)
Definition five : list Message.t :=
  [message "bob" "me" "a0" STRING "0" 10; message "bob" "me" "a1" STRING "1" 11;
   message "bob" "me" "a2" STRING "2" 12; message "bob" "me" "a3" STRING "3" 13;
   message "bob" "me" "a4" STRING "4" 14].

Definition pagedNode : World :=
  mkWorld "me" []
          [Chat.mk "e5" "bob" "bob" [] five true "bob" [] false []]
          [] [] [] [] [].


(** A file-backed chat with one message that has one reply, and three
    edits: a DELETE and an EDIT whose target is not in the chat, and an
    EDIT of the reply. *)
Definition reply : Message.t := message "bob" "me" "rp1" STRING "re" 120.

Definition top : Message.t :=
  Message.set_replies [reply] (message "bob" "me" "t1" STRING "hi" 110).

Definition fileChat : Legacy.Chat.t :=
  Legacy.Chat.mk "c1" "bob" [] [top] "bob" false true ∅ [].

Definition fileNode : Legacy.World :=
  Legacy.mkWorld {["c1" := fileChat]} [] [].

Definition deleteAbsent : Message.t := message "bob" "me" "zzz" DELETE "gone" 130.

Definition editAbsent : Message.t :=
  Message.mk "bob" "me" (BMessage (message "bob" "me" "zzz" STRING "new" 130))
             131 "e1" EDIT [] None [] None.

Definition editOfReply : Message.t :=
  Message.mk "bob" "me" (BString "edited") 140 "rp1" EDIT [] (Some "t1") [] None.


(** The [updated] stamp of that reply in a store. *)
Definition stampOfReply (w : Legacy.World) : option Z :=
  match Legacy.chats w !! "c1" with
  | Some chat =>
      match Legacy.Chat.messages chat with
      | m :: _ =>
          match Message.replies m with
          | r :: _ => Message.updated r
          | [] => None
          end
      | [] => None
      end
  | None => None
  end.

End Scenario.

(** ** The rest of chat.service.ts *)

Module ChatService.
Import Nest.

(** [search().return.page(offset, count)]. *)
Definition getChats (offset count : nat) : M World (list Chat.t) :=
  gets (fun w => firstn count (skipn offset (chatRepo w))).

(** [search().where('acceptedChat').true().return.page(offset, count)]. *)
Definition getAcceptedChats (offset count : nat) : M World (list Chat.t) :=
  gets (fun w =>
          firstn count (skipn offset (List.filter Chat.acceptedChat (chatRepo w)))).

Definition removeContactFromChat (chat : Chat.t) (contactId : string)
  : M World string :=
  let contacts :=
    List.filter (fun c => negb (String.eqb (Contact.id c) contactId))
                (Chat.contacts chat) in
  save (Chat.set_contacts contacts chat).

(** [Repository.remove]: the entity with that entity id goes. *)
Definition removeEntity (entityId : string) (l : list Chat.t) : list Chat.t :=
  List.filter (fun c => negb (String.eqb (Chat.entityId c) entityId)) l.

(** [deleteChat] returns nothing, or throws: the exception of the lookup,
    which is made outside the [try], or an [InternalServerErrorException]
    that wraps whatever was thrown inside it. *)
Inductive DeleteOutcome : Type :=
  | Removed
  | InternalServerErrorException (cause : Exn)
  | Propagated (e : Exn).

Definition deleteChat (chatID : string) : World -> DeleteOutcome * World :=
  fun w =>
    match getChat chatID w with
    | (Ok (Some chatToDelete), w1) =>
        (Removed,
         withChatRepo (removeEntity (Chat.entityId chatToDelete) (chatRepo w1)) w1)
    | (Ok None, w1) => (InternalServerErrorException TypeError, w1)
    | (Throw e, w1) => (Propagated e, w1)
    end.

End ChatService.

(** ** The socket service: blocking and unblocking a chat *)

Module SocketService.

(** The block list of the data service, the connected sockets and the
    events sent to them. *)
Record World : Type := mkWorld {
  blocklist : list string;
  connections : list string;
  sent : list (string * string * string) }.

(** Modelled from the spec: [dataService.getBlocklist] and
    [dataService.persistBlocklist] read and write the blocked-contact store
    as a whole. *)
Definition getBlocklist : M World (list string) := gets blocklist.

Definition persistBlocklist (blockList : list string) : M World unit :=
  modify (fun w => mkWorld blockList (connections w) (sent w)).

Definition sendEventToConnectedSockets (event body : string) : M World unit :=
  modify (fun w =>
            mkWorld (blocklist w) (connections w)
                    (sent w ++ List.map (fun connection => (connection, event, body))
                                        (connections w))).

(** [socket.on('block_chat', id => ...)]. *)
Definition onBlockChat (id : string) : M World unit :=
  let* blockList := getBlocklist in
  if existsb (String.eqb id) blockList then ret tt
  else
    let blockList := blockList ++ [id] in
    let* _ := persistBlocklist blockList in
    sendEventToConnectedSockets "chat_blocked" id.

(** [socket.on('unblock_chat', name => ...)]. *)
Definition onUnblockChat (name : string) : M World unit :=
  let* blockList := getBlocklist in
  persistBlocklist (List.filter (fun b => negb (String.eqb b name)) blockList).

End SocketService.

(** ** The key service of key/service/key.service.ts *)

Module KeyService.
Section WithEncryption.
(** [EncryptionService.uint8ToBase64], over whatever stands for a
    [Uint8Array]. *)
Context {Bytes : Type} (uint8ToBase64 : Bytes -> string).

Definition updateKey (pk : Bytes) (keyType : KeyType) : M Nest.World Key.t :=
  let pkString := uint8ToBase64 pk in
  let* userId := gets Nest.userId in
  let k := Key.mk (Some userId) pkString keyType in
  let* _ := modify (fun w => Nest.withKeyRepo (Nest.keyRepo w ++ [k]) w) in
  ret k.

Definition getPublicKey : M Nest.World (option Key.t) :=
  let* userId := gets Nest.userId in
  gets (fun w =>
          find (fun k => Key.userIdEquals userId k
                         && KeyType_eqb (Key.keyType k) Public)
               (Nest.keyRepo w)).

End WithEncryption.
End KeyService.

(** ** user.service.ts *)

Module UserService.

Module User.
Record t : Type := mk {
  entityId : string;
  userId : string;
  status : string;
  avatar : string;
  lastSeen : Z }.
End User.

(** The configured user id and the user repository.  The repository is
    held as the entities a search returns. *)
Record World : Type := mkWorld {
  userId : string;
  userRepo : list User.t }.

Fixpoint saveEntity (u : User.t) (l : list User.t) : list User.t :=
  match l with
  | [] => [u]
  | x :: l' =>
      if String.eqb (User.entityId x) (User.entityId u)
      then u :: l'
      else x :: saveEntity u l'
  end.

Section WithRepository.
(** The entity id the repository gives to a new entity, and the date
    field of the repository: [lastSeen] is kept as a number of seconds in
    floating point, and [storedDate t] is the instant, in milliseconds,
    that is read back after the instant [t] was written.  It need not be
    [t]. *)
Context (newId : list User.t -> string) (storedDate : Z -> Z).

(** The entity as a search returns it once it has been written. *)
Definition stored (u : User.t) : User.t :=
  User.mk (User.entityId u) (User.userId u) (User.status u) (User.avatar u)
          (storedDate (User.lastSeen u)).

Definition save (u : User.t) : M World string :=
  fun w =>
    (Ok (User.entityId u), mkWorld (userId w) (saveEntity (stored u) (userRepo w))).

(** [createAndSave] returns the entity it has built from the data, with
    the date as it was given. *)
Definition addUserData (userId status avatar : string) (lastSeen : Z)
  : M World User.t :=
  fun w =>
    let u := User.mk (newId (userRepo w)) userId status avatar lastSeen in
    (Ok u, mkWorld (UserService.userId w) (userRepo w ++ [stored u])).

(** [now] is the value of [new Date()] at the call. *)
Definition getUserData (now : Z) : M World User.t :=
  let* userId := gets userId in
  let* user :=
    gets (fun w => find (fun u => String.eqb (User.userId u) userId) (userRepo w)) in
  match user with
  | None => addUserData userId "Exploring the new DigitalTwin" "default" now
  | Some user => ret user
  end.

Definition updateUserData (now : Z) (userData : User.t) : M World string :=
  let* userToUpdate := getUserData now in
  save (User.mk (User.entityId userToUpdate) (User.userId userToUpdate)
                (User.status userData) (User.avatar userData)
                (User.lastSeen userData)).

(** [now] and [later] are the values of the two [new Date()]: the one
    of [getUserData] and the one of the assignment to [lastSeen]. *)
Definition addAvatar (now later : Z) (userId path : string) : M World string :=
  let* userToUpdate := getUserData now in
  save (User.mk (User.entityId userToUpdate) userId (User.status userToUpdate)
                path later).

End WithRepository.
End UserService.

Module Cases.

(** Services whose API returns Alice's public key for her location. *)
Definition fetchingServices : Nest.Services :=
  Nest.mkServices Scenario.createBase64Signature Scenario.verifySignature
    (fun location => if String.eqb location "loc-alice" then Some "key-of-alice" else None)
    Scenario.determineChatID Scenario.verifySignedMessage
    Scenario.contactRequestHandle Scenario.systemHandle
    (fun _ => 0%nat).

(** The group's node when neither "m1" nor "m2" can be reached, and
    services under which, of the failed deliveries, the second in the order
    of the contacts settles first. *)
Definition cutOffNode : Nest.World :=
  Nest.mkWorld "m0" [Key.mk (Some "m0") "key-of-m0" Private] [Scenario.group] [] [] []
               ["loc-m1"; "loc-m2"] [].

Definition secondSettlesFirst : Nest.Services :=
  Nest.mkServices Scenario.createBase64Signature Scenario.verifySignature
    (fun _ => None)
    Scenario.determineChatID Scenario.verifySignedMessage
    Scenario.contactRequestHandle Scenario.systemHandle
    (fun _ => 1%nat).

(** Bob's node with a public-key record for Alice that carries no key. *)
Definition staleKeyNode : Nest.World :=
  Nest.withKeyRepo [Key.mk (Some "alice") "" Public] Scenario.bobNode.

(** A node with the chat the gateway looks up for messages to "bob". *)
Definition gatewayChat : Nest.Chat.t :=
  Nest.Chat.mk "e9" "me-bob" "bob" [Contact.mk "bob" "loc-bob"] [Scenario.first]
               true "bob" [] false [].

Definition gatewayNode : Nest.World :=
  Nest.mkWorld "me" [Key.mk (Some "me") "key-of-me" Private] [gatewayChat] [] [] [] [] [].

Definition toBob : Message.t := Scenario.message "someone" "bob" "m9" STRING "hey" 400.

(** A file-backed chat with two messages, one connected socket, and the
    chat id of a message as the messages route determines it for "me". *)
Definition readChat : Legacy.Chat.t :=
  Legacy.Chat.mk "bob" "bob" [] [Scenario.first; Scenario.second] "bob" false true ∅ [].

Definition readNode : Legacy.World :=
  Legacy.mkWorld {["bob" := readChat]} ["socket-1"] [].

Definition determineChatId : Message.t -> string := Scenario.determineChatID "me".

Definition deleteTop : Message.t := Scenario.message "bob" "me" "t1" DELETE "removed" 150.

Definition editTop : Message.t :=
  Message.mk "bob" "me" (BMessage (Scenario.message "bob" "me" "t1" STRING "hi!" 110))
             151 "e2" EDIT [] None [] None.

End Cases.

(** ** Vocabulary of the statements *)

(** The entry of the fetched page of blocked contacts that names the
    sender, as [handleIncomingMessage] computes it ([isBlocked]). *)
Definition onBlockedPage (message : Message.t) (offset count : nat) (w : Nest.World)
  : option Nest.BlockedContact.t :=
  find (fun c => String.eqb (Nest.BlockedContact.id c) (Message.from message))
       (firstn count (skipn offset (Nest.blockedRepo w))).

(** The contacts a group admin forwards to, the test that a contact's
    location is unreachable, and the message with the node's signature in
    front. *)
Definition receivingContacts (userId : string) (chat : Nest.Chat.t) : list Contact.t :=
  List.filter (fun c => negb (String.eqb (Contact.id c) userId)) (Nest.Chat.contacts chat).

Definition isUnreachable (w : Nest.World) (c : Contact.t) : bool :=
  existsb (String.eqb (Contact.location c)) (Nest.unreachable w).

Definition nodeSigned (svc : Nest.Services) (k : Key.t) (message : Message.t) : Message.t :=
  Message.set_signatures
    (Nest.createBase64Signature svc message (Key.key k) :: Message.signatures message)
    message.

(** What the gateway leaves behind, relative to the store it started from:
    every emitted event and every stored message was there before or has
    the local user as its sender. *)
Definition senderIsLocalOrOld (w w' : Nest.World) : Prop :=
  (forall ev msg, In (ev, Some msg) (Nest.emitted w') ->
                  In (ev, Some msg) (Nest.emitted w) \/ Message.from msg = Nest.userId w)
  /\ (forall c' msg, In c' (Nest.chatRepo w') -> In msg (Nest.Chat.messages c') ->
                     (exists c, In c (Nest.chatRepo w) /\ In msg (Nest.Chat.messages c))
                     \/ Message.from msg = Nest.userId w).

(** The staleness test of [handleRead]: both the recorded and the new read
    target are messages of the chat, and the new one is strictly older. *)
Definition staleRead (chat : Legacy.Chat.t) (from body : string) : bool :=
  match
    match Legacy.Chat.read chat !! from with
    | Some r => find (fun m => String.eqb (Message.id m) r) (Legacy.Chat.messages chat)
    | None => None
    end,
    find (fun m => String.eqb (Message.id m) body) (Legacy.Chat.messages chat)
  with
  | Some o, Some n => Message.timeStamp n <? Message.timeStamp o
  | _, _ => false
  end.

(** The messages of a page, when the call returned one. *)
Definition messagesOf (r : Result (bool * list Message.t) * Nest.World) : list Message.t :=
  match fst r with
  | Ok (_, l) => l
  | Throw _ => []
  end.

(** What [editMessage] does to the chat it has loaded: it persists a chat,
    returns without persisting, or throws. *)
Inductive Effect : Type :=
  | Persist (chat : Legacy.Chat.t)
  | Nothing
  | Raise (e : Exn).

Definition editEffect (now : Z) (newMessage : Message.t) (chat : Legacy.Chat.t) : Effect :=
  let messages := Legacy.Chat.messages chat in
  if Legacy.truthySubject (Message.subject newMessage) then
    let messageIndex := Js.findIndex (Legacy.isSubject (Message.subject newMessage)) messages in
    if messageIndex =? -1 then Nothing
    else
      match Js.at_ messages messageIndex with
      | None => Raise TypeError
      | Some target =>
          let replyIndex :=
            Js.findIndex (fun r => String.eqb (Message.id r) (Message.id newMessage))
                         (Message.replies target) in
          if replyIndex =? -1 then Nothing
          else
            match Js.at_ (Message.replies target) replyIndex with
            | None => Raise TypeError
            | Some reply =>
                let reply :=
                  Message.set_updated (Some now)
                    (Message.set_body (Message.body newMessage) reply) in
                Persist
                  (Legacy.Chat.set_messages
                     (Js.setAt messages messageIndex
                        (Message.set_replies
                           (Js.setAt (Message.replies target) replyIndex reply) target))
                     chat)
            end
      end
  else
    match Message.type newMessage with
    | DELETE =>
        let index :=
          Js.findIndex (fun mes => String.eqb (Message.id mes) (Message.id newMessage))
                       messages in
        match Js.at_ messages index with
        | None => Raise TypeError
        | Some target =>
            Persist
              (Legacy.Chat.set_messages
                 (Js.setAt messages index
                    (Message.set_type DELETE
                       (Message.set_body (Message.body newMessage) target)))
                 chat)
        end
    | EDIT =>
        match Message.body newMessage with
        | BMessage raw =>
            let editedMessage := Legacy.parseMessage raw in
            Persist
              (Legacy.Chat.set_messages
                 (Js.setAt messages
                    (Js.findIndex
                       (fun mes => String.eqb (Message.id mes) (Message.id editedMessage))
                       messages)
                    editedMessage)
                 chat)
        | _ => Persist chat
        end
    | _ => Persist chat
    end.

Definition applyEffect (e : Effect) (w : Legacy.World) : Result unit * Legacy.World :=
  match e with
  | Persist chat =>
      (Ok tt, Legacy.withChats (<[Legacy.Chat.chatId chat := chat]> (Legacy.chats w)) w)
  | Nothing => (Ok tt, w)
  | Raise e => (Throw e, w)
  end.

(** * Properties *)

(** ** JavaScript primitives *)

Lemma findIndexFrom_bounds {A : Type} (p : A -> bool) (l : list A) (i : Z) :
  Js.findIndexFrom p l i = -1 \/
  (i <= Js.findIndexFrom p l i < i + Z.of_nat (length l)).
Proof.
  revert i. induction l as [|x l IH]; intros i; simpl.
  - now left.
  - destruct (p x).
    + right. lia.
    + destruct (IH (i + 1)) as [E | B]; [now left | right; lia].
Qed.

(** Counting from [i] instead of 0 shifts a found index by [i]. *)
Lemma findIndexFrom_shift {A : Type} (p : A -> bool) (l : list A) (i : Z) :
  0 <= i ->
  Js.findIndexFrom p l i =
    if Js.findIndexFrom p l 0 =? -1 then -1 else i + Js.findIndexFrom p l 0.
Proof.
  revert i. induction l as [|x l IH]; intros i Hi; simpl.
  - reflexivity.
  - destruct (p x).
    + simpl. lia.
    + rewrite (IH (i + 1)) by lia. rewrite (IH (0 + 1)) by lia.
      destruct (Js.findIndexFrom p l 0 =? -1) eqn:E; simpl.
      * reflexivity.
      * destruct (findIndexFrom_bounds p l 0) as [H | H].
        -- rewrite H in E. discriminate.
        -- replace (0 + 1 + Js.findIndexFrom p l 0 =? -1) with false
             by (symmetry; apply Z.eqb_neq; lia).
           lia.
Qed.

(** A head that satisfies the predicate is found at index 0. *)
Lemma findIndex_head {A : Type} (p : A -> bool) (x : A) (l : list A) :
  p x = true -> Js.findIndex p (x :: l) = 0.
Proof. intros H. unfold Js.findIndex. simpl. now rewrite H. Qed.

(** The first element satisfying the predicate, behind elements that do
    not, is found at the length of that prefix. *)
Lemma findIndex_skip {A : Type} (p : A -> bool) (newer : list A) (x : A) (older : list A) :
  Forall (fun y => p y = false) newer ->
  p x = true ->
  Js.findIndex p (newer ++ x :: older) = Z.of_nat (length newer).
Proof.
  unfold Js.findIndex. intros Hn Hx.
  assert (G : forall i, Js.findIndexFrom p (newer ++ x :: older) i
                        = i + Z.of_nat (length newer)).
  { induction Hn as [|y l Hy Hl IH]; intros i; simpl.
    - rewrite Hx. lia.
    - rewrite Hy, IH. lia. }
  now rewrite G.
Qed.

(** Slicing from just behind an element to the end yields what follows
    it. *)
Lemma slice_suffix {A : Type} (newer older : list A) (x : A) :
  Js.slice (newer ++ x :: older) (Z.of_nat (length newer) + 1)
           (Z.of_nat (length (newer ++ x :: older))) = older.
Proof.
  unfold Js.slice, Js.relativeIndex.
  rewrite length_app. simpl length.
  replace (Z.of_nat (length newer) + 1 <? 0) with false
    by (symmetry; apply Z.ltb_ge; lia).
  replace (Z.of_nat (length newer + S (length older)) <? 0) with false
    by (symmetry; apply Z.ltb_ge; lia).
  rewrite !Z.min_l by lia.
  replace (Z.to_nat (Z.of_nat (length newer) + 1)) with (length (newer ++ [x]))
    by (rewrite length_app; simpl; lia).
  replace (Z.to_nat (Z.of_nat (length newer + S (length older))
                     - (Z.of_nat (length newer) + 1)))
    with (length older) by lia.
  replace (newer ++ x :: older) with ((newer ++ [x]) ++ older)
    by (now rewrite <- app_assoc).
  rewrite drop_app_length. apply firstn_all.
Qed.

(** ** A tactic for running the effect monad *)

Ltac run :=
  cbn [bind ret throw gets modify deref negb fst snd].

(** ** The signature chain (key.service.ts) *)

Section SignatureChain.
Import Nest.
Context (svc : Services).

(** Whatever the keys and the signature scheme, the signature at the head
    of [signatures] (index 0) is reported invalid: [!signatureIdx] holds
    at index 0. *)
Lemma newest_signature_never_verifies (contact : Contact.t)
      (message : Message.t) (s : string) (rest : list string) (w : World) :
  verifyMessageSignature svc contact (Message.set_signatures (s :: rest) message) s w
  = (Ok false, w).
Proof.
  unfold verifyMessageSignature.
  change (Message.signatures (Message.set_signatures (s :: rest) message))
    with (s :: rest).
  rewrite findIndex_head by apply String.eqb_refl.
  reflexivity.
Qed.

(** A signature behind at least one newer signature is checked against
    the message as its signer saw it: with the signatures after it only,
    under the cached public key of the contact. *)
Lemma older_signature_verification (contact : Contact.t)
      (message : Message.t) (newer older : list string) (sig : string)
      (k : Key.t) (w : World) :
  Message.signatures message = newer ++ sig :: older ->
  newer <> [] ->
  Forall (fun s => String.eqb s sig = false) newer ->
  getPublicKeyByUserID (Contact.id contact) w = (Ok (Some k), w) ->
  Js.truthyString (Key.key k) = true ->
  verifyMessageSignature svc contact message sig w
  = (Ok (verifySignature svc (Message.set_signatures older message) sig (Key.key k)), w).
Proof.
  intros Hs Hne Hnew Hk Ht.
  unfold verifyMessageSignature. rewrite Hs.
  rewrite findIndex_skip by (auto using String.eqb_refl).
  assert (Hpos : Js.truthyNumber (Z.of_nat (length newer)) = true).
  { unfold Js.truthyNumber. destruct newer; [congruence | reflexivity]. }
  rewrite Hpos. cbn [negb]. unfold bind at 1. rewrite Hk.
  run. rewrite Ht. cbn [negb]. unfold ret.
  now rewrite slice_suffix.
Qed.

(** Signing with a private key that carries key material prepends the
    signature of the message as it stands. *)
Lemma appendSignatureToMessage_signs (message : Message.t) (k : Key.t) (w : World) :
  getKey Private w = (Ok (Some k), w) ->
  Js.truthyString (Key.key k) = true ->
  appendSignatureToMessage svc message w
  = (Ok (Some (Message.set_signatures
                 (createBase64Signature svc message (Key.key k)
                    :: Message.signatures message) message)), w).
Proof.
  intros Hk Ht. unfold appendSignatureToMessage.
  unfold bind at 1. rewrite Hk. run. now rewrite Ht.
Qed.

(** With no private-key record at all, reading [key] off the [null]
    lookup result raises a [TypeError]. *)
Lemma appendSignatureToMessage_no_record (message : Message.t) (w : World) :
  getKey Private w = (Ok None, w) ->
  appendSignatureToMessage svc message w = (Throw TypeError, w).
Proof.
  intros Hk. unfold appendSignatureToMessage.
  unfold bind at 1. rewrite Hk. reflexivity.
Qed.

(** Round trip behind a newer signature: the signature a signer made with
    secret key [sk] over [message] verifies under the matching public key
    [pk] once a later signer has prepended a different signature. *)
Lemma signer_verified_behind_newer (contact : Contact.t) (message : Message.t)
      (sk : string) (newer : list string) (k : Key.t) (w : World) :
  (forall d, verifySignature svc d (createBase64Signature svc d sk) (Key.key k) = true) ->
  newer <> [] ->
  Forall (fun s => String.eqb s (createBase64Signature svc message sk) = false) newer ->
  getPublicKeyByUserID (Contact.id contact) w = (Ok (Some k), w) ->
  Js.truthyString (Key.key k) = true ->
  verifyMessageSignature svc contact
    (Message.set_signatures
       (newer ++ createBase64Signature svc message sk :: Message.signatures message)
       message)
    (createBase64Signature svc message sk) w
  = (Ok true, w).
Proof.
  intros Hsound Hne Hnew Hk Ht.
  rewrite (older_signature_verification contact _ newer (Message.signatures message)
             _ k w); auto.
  replace (Message.set_signatures (Message.signatures message)
             (Message.set_signatures
                (newer ++ createBase64Signature svc message sk
                   :: Message.signatures message) message))
    with message by (now destruct message).
  now rewrite Hsound.
Qed.
End SignatureChain.

(** C1 (the code departs from the claim).  Alice signs a message with her
    private key; the signature is valid for the message as she saw it under
    her key; Bob, who holds her public key, asks [verifyMessageSignature]
    about that newest signature (index 0) and is told it is invalid. *)
Theorem newest_signature_is_rejected :
  exists signed sig,
    Nest.appendSignatureToMessage Scenario.services Scenario.hello Scenario.aliceNode
      = (Ok (Some signed), Scenario.aliceNode)
    /\ Message.signatures signed = [sig]
    /\ Nest.verifySignature Scenario.services (Message.set_signatures [] signed) sig
         "key-of-alice" = true
    /\ Nest.verifyMessageSignature Scenario.services Scenario.alice signed sig
         Scenario.bobNode
       = (Ok false, Scenario.bobNode).
Proof.
  eexists. eexists. split; [vm_compute; reflexivity |].
  split; [reflexivity |]. split; vm_compute; reflexivity.
Qed.

(** C6 (counterexample).  On a node whose private-key record carries no key
    material, signing raises nothing: the call returns [undefined] and the
    store is as before. *)
Lemma signing_without_key_material_returns_undefined :
  Nest.appendSignatureToMessage Scenario.services Scenario.hello Scenario.keylessNode
  = (Ok None, Scenario.keylessNode).
Proof. vm_compute. reflexivity. Qed.

(** C6 (amended).  When the local private-key record carries no key
    material, [appendSignatureToMessage] returns nothing ([undefined]): no
    error is raised, no signature is added, the store is unchanged. *)
Theorem appendSignatureToMessage_without_key_material
        (svc : Nest.Services) (message : Message.t) (k : Key.t) (w : Nest.World) :
  Nest.getKey Private w = (Ok (Some k), w) ->
  Js.truthyString (Key.key k) = false ->
  Nest.appendSignatureToMessage svc message w = (Ok None, w).
Proof.
  intros Hk Ht. unfold Nest.appendSignatureToMessage.
  unfold bind at 1. rewrite Hk. run. now rewrite Ht.
Qed.

(** The amended C6 at the node whose key record is empty. *)
Lemma appendSignatureToMessage_without_key_material_witness :
  Nest.appendSignatureToMessage Scenario.services Scenario.hello Scenario.keylessNode
  = (Ok None, Scenario.keylessNode).
Proof.
  apply (appendSignatureToMessage_without_key_material
           Scenario.services Scenario.hello (Key.mk (Some "alice") "" Private)
           Scenario.keylessNode);
    reflexivity.
Defined.

(** ** Admission (MessageController.handleIncomingMessage) *)

Section Admission.
Import Nest.
Context (svc : Services).

(** A sender found on the fetched page is rejected before anything else
    is read or written. *)
Lemma admission_blocked (message : Message.t) (offset count : nat) (w : World) (b : BlockedContact.t) :
  onBlockedPage message offset count w = Some b ->
  MessageController.admission svc message offset count w
  = (Throw (ForbiddenException "blocked"), w).
Proof.
  intros H. unfold MessageController.admission, getBlockedContactList. run.
  unfold onBlockedPage in H. unfold bind, gets. now rewrite H.
Qed.

(** X12.  A sender found on the fetched page of blocked contacts is
    rejected: the handler ends in the "blocked" exception before the chat
    is looked up or anything is dispatched, and the store is untouched. *)
Lemma blocked_sender_on_page_rejected (message : Message.t) (offset count : nat)
      (w : World) (b : BlockedContact.t) :
  onBlockedPage message offset count w = Some b ->
  MessageController.handleIncomingMessage svc message offset count w
  = (Throw (ForbiddenException "blocked"), w).
Proof.
  intros H. unfold MessageController.handleIncomingMessage.
  unfold bind. now rewrite (admission_blocked _ _ _ _ b H).
Qed.

(** A SYSTEM message of a sender other than the admin of the resolved
    chat does not pass admission. *)
Lemma admission_system_non_admin (message : Message.t) (offset count : nat)
      (chat : Chat.t) (w : World) :
  Message.type message = SYSTEM ->
  getChat (determineChatID svc (userId w) message) w = (Ok (Some chat), w) ->
  Chat.adminId chat <> Message.from message ->
  MessageController.admission svc message offset count w
  = (Throw (ForbiddenException
              (match onBlockedPage message offset count w with
               | Some _ => "blocked"
               | None => "not allowed"
               end)), w).
Proof.
  intros Ht Hc Hne.
  destruct (onBlockedPage message offset count w) as [b|] eqn:Hb.
  - now apply (admission_blocked _ _ _ _ b).
  - unfold MessageController.admission, getBlockedContactList.
    unfold onBlockedPage in Hb. unfold bind at 1. unfold gets at 1.
    rewrite Hb. unfold bind at 1. unfold gets at 1.
    unfold bind at 1. rewrite Hc. rewrite Ht. cbn [MessageType_eqb]. run.
    apply String.eqb_neq in Hne. now rewrite Hne.
Qed.

(** A SYSTEM message that passes admission comes from the admin of the
    resolved chat, and admission has written nothing. *)
Lemma admission_system_only_admin (message : Message.t) (offset count : nat)
      (r : option Chat.t) (w w' : World) :
  Message.type message = SYSTEM ->
  MessageController.admission svc message offset count w = (Ok r, w') ->
  exists chat, r = Some chat /\ Chat.adminId chat = Message.from message /\ w' = w.
Proof.
  intros Ht. unfold MessageController.admission, getBlockedContactList, getChat.
  unfold bind, gets, deref, ret, throw. rewrite Ht. cbn [MessageType_eqb].
  destruct (find _ (firstn _ _)); [discriminate |].
  destruct (find _ (chatRepo w)) as [c|]; [| discriminate].
  destruct (String.eqb (Chat.adminId c) (Message.from message)) eqn:E;
    cbn [negb]; [| discriminate].
  intros H. injection H as <- <-. exists c. apply String.eqb_eq in E. auto.
Qed.
End Admission.

(** C5.  An inbound SYSTEM message whose sender is not the admin of the
    resolved chat is rejected with a [ForbiddenException] and the store is
    left as it was; the exception is the "not allowed" one unless the
    sender is also on the fetched page of blocked contacts, whose check
    comes first.  Moreover a SYSTEM message passes admission only when its
    sender is the admin of the resolved chat. *)
Theorem system_message_from_non_admin_rejected
        (svc : Nest.Services) (message : Message.t) (offset count : nat) (w : Nest.World) :
  Message.type message = SYSTEM ->
  (forall chat,
      Nest.getChat (Nest.determineChatID svc (Nest.userId w) message) w = (Ok (Some chat), w) ->
      Nest.Chat.adminId chat <> Message.from message ->
      Nest.MessageController.handleIncomingMessage svc message offset count w
      = (Throw (ForbiddenException
                  (match onBlockedPage message offset count w with
                   | Some _ => "blocked"
                   | None => "not allowed"
                   end)), w))
  /\ (forall r w',
         Nest.MessageController.admission svc message offset count w = (Ok r, w') ->
         exists chat,
           r = Some chat /\ Nest.Chat.adminId chat = Message.from message /\ w' = w).
Proof.
  intros Ht. split.
  - intros chat Hc Hne. unfold Nest.MessageController.handleIncomingMessage.
    unfold bind. now rewrite (admission_system_non_admin svc _ _ _ chat w Ht Hc Hne).
  - intros r w' H. now apply (admission_system_only_admin svc _ offset count).
Qed.

(** C5 at the group of admin "m0": a SYSTEM message from "m1". *)
Lemma system_message_from_non_admin_rejected_witness :
  Nest.MessageController.handleIncomingMessage
    Scenario.services Scenario.systemFromM1 0 25 Scenario.adminNode
  = (Throw (ForbiddenException "not allowed"), Scenario.adminNode).
Proof.
  apply (proj1 (system_message_from_non_admin_rejected
                  Scenario.services Scenario.systemFromM1 0 25 Scenario.adminNode
                  eq_refl) Scenario.group).
  - reflexivity.
  - vm_compute. discriminate.
Defined.

(** C2 (the code departs from the claim).  "mallory" is in the blocked list
    and sends a CONTACT_REQUEST.  With [offset = 1] in the query string, or
    with the default page when twenty-five entries precede hers, the page
    that is fetched does not contain her: the request is not rejected, the
    chat is looked up, the handler runs and writes a contact record. *)
Theorem blocked_sender_beyond_the_page_is_dispatched :
  Nest.MessageController.handleIncomingMessage
    Scenario.services Scenario.contactRequest 1 25 Scenario.blockingNode
  = (Ok tt, Nest.withContactRepo [Contact.mk "mallory" "loc-mallory"] Scenario.blockingNode)
  /\ Nest.MessageController.handleIncomingMessage
       Scenario.services Scenario.contactRequest 0 25 Scenario.crowdedNode
     = (Ok tt, Nest.withContactRepo [Contact.mk "mallory" "loc-mallory"] Scenario.crowdedNode).
Proof. split; vm_compute; reflexivity. Qed.

(** ** Group fan-out (ChatService.handleGroupAdmin) *)

Section GroupFanout.
Import Nest.
Context (svc : Services).

(** Writing back the outbox a store has changes nothing. *)
Lemma withOutbox_id (w : World) : withOutbox (outbox w) w = w.
Proof. now destruct w. Qed.

(** Every forward is attempted and recorded, in the order of the
    contacts, and each of them settles on its own. *)
Lemma settleAll_sends (signed : option Message.t) (l : list Contact.t) (w : World) :
  settleAll (List.map (fun c => sendMessageToApi (Contact.location c) signed) l) w
  = (List.map (fun c => if isUnreachable w c
                        then Throw (TransportError (Contact.location c))
                        else Ok tt) l,
     withOutbox (outbox w ++ List.map (fun c => (Contact.location c, signed)) l) w).
Proof.
  revert w. induction l as [|c l IH]; intros w.
  - simpl. now rewrite app_nil_r, withOutbox_id.
  - cbn [List.map settleAll].
    unfold sendMessageToApi at 1. unfold isUnreachable at 1.
    destruct (existsb (String.eqb (Contact.location c)) (unreachable w)) eqn:E;
      rewrite IH; cbn [outbox withOutbox unreachable];
      unfold withOutbox; cbn; rewrite <- app_assoc; cbn [app]; reflexivity.
Qed.

Lemma rejected_sends (p : Contact.t -> bool) (l : list Contact.t) :
  rejected (List.map (fun c => if p c
                               then Throw (TransportError (Contact.location c))
                               else Ok tt) l)
  = List.map (fun c => TransportError (Contact.location c)) (List.filter p l).
Proof.
  induction l as [|c l IH]; [reflexivity |].
  cbn [List.map List.filter rejected]. destruct (p c); cbn [rejected List.map];
    now rewrite IH.
Qed.

Lemma fulfilled_sends (p : Contact.t -> bool) (l : list Contact.t) :
  List.filter p l = [] ->
  fulfilled (List.map (fun c => if p c
                                then Throw (TransportError (Contact.location c))
                                else Ok tt) l)
  = List.map (fun _ => tt) l.
Proof.
  induction l as [|c l IH]; [reflexivity |].
  cbn [List.map List.filter fulfilled]. destruct (p c); [discriminate |].
  intros H. cbn [fulfilled]. now rewrite IH.
Qed.

(** Whatever position is named, the rejection reported is one of the list. *)
Lemma nth_or_first_In {A : Type} (n : nat) (x : A) (l : list A) :
  In (nth n (x :: l) x) (x :: l).
Proof.
  destruct (Nat.lt_ge_cases n (length (x :: l))) as [H | H].
  - now apply nth_In.
  - rewrite nth_overflow by exact H. now left.
Qed.

(** The fan-out is fulfilled when every contact is reachable; otherwise it
    is rejected with the delivery error of the unreachable contact whose
    send settles first. *)
Lemma fanout_outcome (settles : list Exn -> nat) (signed : option Message.t)
      (l : list Contact.t) (w : World) :
  promiseAll settles
    (List.map (fun c => sendMessageToApi (Contact.location c) signed) l) w
  = (match List.filter (isUnreachable w) l with
     | [] => Ok (List.map (fun _ => tt) l)
     | c :: cs =>
         Throw (TransportError
                  (Contact.location
                     (nth (settles (List.map (fun c => TransportError (Contact.location c))
                                             (c :: cs)))
                          (c :: cs) c)))
     end,
     withOutbox (outbox w ++ List.map (fun c => (Contact.location c, signed)) l) w).
Proof.
  unfold promiseAll. rewrite settleAll_sends, rejected_sends.
  destruct (List.filter (isUnreachable w) l) as [|c cs] eqn:E.
  - cbn [List.map]. now rewrite fulfilled_sends.
  - cbn [List.map].
    change (TransportError (Contact.location c)
              :: List.map (fun c0 => TransportError (Contact.location c0)) cs)
      with (List.map (fun c0 => TransportError (Contact.location c0)) (c :: cs)).
    now rewrite (map_nth (fun c0 => TransportError (Contact.location c0))).
Qed.

(** After a successful verification, and with the private key at hand,
    the node-signed message goes to every contact but the local user;
    the call returns the signed message, or throws the delivery error of
    the unreachable contact whose send settles first. *)
Lemma handleGroupAdmin_outcome (chat : Chat.t) (message : Message.t)
      (k : Key.t) (w w1 : World) :
  verifySignedMessage svc false None
    (find (fun c => String.eqb (Contact.id c) (Message.from message)) (Chat.contacts chat))
    message w = (Ok true, w1) ->
  getKey Private w1 = (Ok (Some k), w1) ->
  Js.truthyString (Key.key k) = true ->
  handleGroupAdmin svc chat message w
  = (match List.filter (isUnreachable w1) (receivingContacts (userId w1) chat) with
     | [] => Ok (nodeSigned svc k message)
     | c :: cs =>
         Throw (TransportError
                  (Contact.location
                     (nth (settlesFirst svc
                             (List.map (fun c => TransportError (Contact.location c))
                                       (c :: cs)))
                          (c :: cs) c)))
     end,
     withOutbox
       (outbox w1 ++ List.map (fun c => (Contact.location c, Some (nodeSigned svc k message)))
                              (receivingContacts (userId w1) chat)) w1).
Proof.
  intros Hv Hk Ht. unfold handleGroupAdmin.
  unfold bind at 1. rewrite Hv. cbn [negb].
  unfold bind at 1. rewrite (appendSignatureToMessage_signs svc message k w1 Hk Ht).
  unfold bind at 1. unfold gets at 1.
  unfold bind at 1. rewrite fanout_outcome.
  fold (receivingContacts (userId w1) chat). fold (nodeSigned svc k message).
  now destruct (List.filter (isUnreachable w1) (receivingContacts (userId w1) chat)).
Qed.
End GroupFanout.

(** C3 (amended).  When the local node is the admin of a group chat and an
    inbound message passed admission and signature verification, the
    node-signed message is sent to every chat contact except the local
    user, every send being attempted and recorded.  If all of them succeed,
    the handler registered for the message type is dispatched with the
    node-signed message (a type without a registered handler ends in a
    [TypeError]); if some of them fail, the delivery error of one of the
    failing recipients is thrown out of [handleIncomingMessage] and nothing
    is dispatched. *)
Theorem group_fanout_all_or_abort
        (svc : Nest.Services) (message : Message.t) (offset count : nat)
        (chat : Nest.Chat.t) (k : Key.t) (w w1 : Nest.World) :
  Nest.MessageController.admission svc message offset count w = (Ok (Some chat), w) ->
  Nest.Chat.isGroup chat = true ->
  Nest.Chat.adminId chat = Nest.userId w ->
  Nest.verifySignedMessage svc false None
    (find (fun c => String.eqb (Contact.id c) (Message.from message)) (Nest.Chat.contacts chat))
    message w = (Ok true, w1) ->
  Nest.getKey Private w1 = (Ok (Some k), w1) ->
  Js.truthyString (Key.key k) = true ->
  let signed := nodeSigned svc k message in
  let receiving := receivingContacts (Nest.userId w1) chat in
  let w2 :=
    Nest.withOutbox
      (Nest.outbox w1 ++ List.map (fun c => (Contact.location c, Some signed)) receiving)
      w1 in
  (List.filter (isUnreachable w1) receiving = [] ->
   Nest.MessageController.handleIncomingMessage svc message offset count w
   = match Nest.messageStateHandlers svc (Message.type message) with
     | Some handler => handler signed chat w2
     | None => (Throw TypeError, w2)
     end)
  /\ (List.filter (isUnreachable w1) receiving <> [] ->
      exists c,
        In c receiving
        /\ isUnreachable w1 c = true
        /\ Nest.MessageController.handleIncomingMessage svc message offset count w
           = (Throw (TransportError (Contact.location c)), w2)).
Proof.
  intros Ha Hg Hadm Hv Hk Ht signed receiving w2.
  assert (E : Nest.MessageController.handleIncomingMessage svc message offset count w
              = match List.filter (isUnreachable w1) receiving with
                | [] =>
                    match Nest.messageStateHandlers svc (Message.type message) with
                    | Some handler => handler signed chat w2
                    | None => (Throw TypeError, w2)
                    end
                | c :: cs =>
                    (Throw (TransportError
                              (Contact.location
                                 (nth (Nest.settlesFirst svc
                                         (List.map
                                            (fun c => TransportError (Contact.location c))
                                            (c :: cs)))
                                      (c :: cs) c))), w2)
                end).
  { unfold Nest.MessageController.handleIncomingMessage.
    unfold bind at 1. rewrite Ha.
    unfold Nest.MessageController.dispatch.
    unfold bind at 1. unfold gets at 1. unfold bind at 1. cbn [deref ret].
    rewrite Hg, Hadm, String.eqb_refl. cbn [andb].
    unfold bind at 1.
    rewrite (handleGroupAdmin_outcome svc chat message k w w1 Hv Hk Ht).
    fold signed. fold receiving. fold w2.
    destruct (List.filter (isUnreachable w1) receiving); [| reflexivity].
    unfold bind.
    change (Message.type signed) with (Message.type message).
    now destruct (Nest.messageStateHandlers svc (Message.type message)). }
  split.
  - intros Hnone. now rewrite E, Hnone.
  - intros Hsome.
    destruct (List.filter (isUnreachable w1) receiving) as [|c cs] eqn:Hfail;
      [contradiction |].
    set (n := Nest.settlesFirst svc _) in E.
    exists (nth n (c :: cs) c).
    assert (Hin : In (nth n (c :: cs) c) (List.filter (isUnreachable w1) receiving)).
    { rewrite Hfail. apply nth_or_first_In. }
    apply filter_In in Hin. destruct Hin as [Hin Hun].
    repeat split; assumption.
Qed.

(** The amended C3 at the group whose member "m2" is unreachable. *)
Lemma group_fanout_all_or_abort_witness :
  exists c,
    In c (receivingContacts "m0" Scenario.group)
    /\ isUnreachable Scenario.adminNode c = true
    /\ Nest.MessageController.handleIncomingMessage
         Scenario.services Scenario.plainFromM1 0 25 Scenario.adminNode
       = (Throw (TransportError (Contact.location c)),
          Nest.withOutbox
            (List.map
               (fun c =>
                  (Contact.location c,
                   Some (nodeSigned Scenario.services
                           (Key.mk (Some "m0") "key-of-m0" Private) Scenario.plainFromM1)))
               (receivingContacts "m0" Scenario.group))
            Scenario.adminNode).
Proof.
  destruct (group_fanout_all_or_abort
              Scenario.services Scenario.plainFromM1 0 25 Scenario.group
              (Key.mk (Some "m0") "key-of-m0" Private) Scenario.adminNode Scenario.adminNode)
    as [_ H]; [reflexivity .. |].
  apply H. discriminate.
Defined.

(** C3 (counterexample).  The spec's scenario: "m1" sends a plain message
    to the group of admin "m0"; the forward to "m2" fails.  The handler
    call ends in that delivery error, and the chat in the repository is
    the one from before, with no message in it. *)
Lemma delivery_failure_aborts_the_accept :
  fst (Nest.MessageController.handleIncomingMessage
         Scenario.services Scenario.plainFromM1 0 25 Scenario.adminNode)
  = Throw (TransportError "loc-m2")
  /\ Nest.chatRepo
       (snd (Nest.MessageController.handleIncomingMessage
               Scenario.services Scenario.plainFromM1 0 25 Scenario.adminNode))
     = [Scenario.group]
  /\ Nest.Chat.messages Scenario.group = [].
Proof. repeat split; vm_compute; reflexivity. Qed.

(** With two unreachable recipients the error thrown is that of either
    of them, as the rejections settle: the first contact's under one
    timing, the second contact's under another; every send is attempted in
    both. *)
Lemma either_delivery_error_can_be_thrown :
  fst (Nest.MessageController.handleIncomingMessage
         Scenario.services Scenario.plainFromM1 0 25 Cases.cutOffNode)
  = Throw (TransportError "loc-m1")
  /\ fst (Nest.MessageController.handleIncomingMessage
            Cases.secondSettlesFirst Scenario.plainFromM1 0 25 Cases.cutOffNode)
     = Throw (TransportError "loc-m2")
  /\ List.map fst
       (Nest.outbox
          (snd (Nest.MessageController.handleIncomingMessage
                  Cases.secondSettlesFirst Scenario.plainFromM1 0 25 Cases.cutOffNode)))
     = ["loc-m1"; "loc-m2"].
Proof. repeat split; vm_compute; reflexivity. Qed.

(** ** The socket gateway (ChatGateway.handleIncomingMessage) *)

Section Gateway.
Import Nest.
Context (svc : Services).

(** [save] adds or replaces the saved entity and keeps the others. *)
Lemma saveEntity_In (c c' : Chat.t) (l : list Chat.t) :
  In c' (saveEntity c l) -> c' = c \/ In c' l.
Proof.
  induction l as [|x l IH]; simpl.
  - intros [H | []]. now left.
  - destruct (String.eqb (Chat.entityId x) (Chat.entityId c)); simpl.
    + intros [H | H]; [now left | right; now right].
    + intros [H | H]; [right; now left |].
      destruct (IH H) as [E | E]; [now left | right; now right].
Qed.

(** Every event emitted and every message stored by the handler either
    was there before or has the local user as its sender. *)
Lemma gateway_sender_is_local (message : Message.t) (w : World) :
  senderIsLocalOrOld w (snd (ChatGateway.handleIncomingMessage svc message w)).
Proof.
  unfold ChatGateway.handleIncomingMessage, appendSignatureToMessage, getKey, getChat.
  unfold bind, gets, deref, ret, throw.
  destruct (find _ (keyRepo w)) as [k|]; cbn [snd].
  2:{ split; [intros; now left | intros c' msg H1 H2; left; eauto]. }
  destruct (negb (Js.truthyString (Key.key k))).
  - destruct (find _ (chatRepo w)); cbn [snd];
      (split; [intros; now left | intros c' msg H1 H2; left; eauto]).
  - destruct (find _ (chatRepo w)) as [chat|] eqn:Hchat; cbn [snd].
    2:{ split; [intros; now left | intros c' msg H1 H2; left; eauto]. }
    apply find_some in Hchat. destruct Hchat as [Hin _].
    set (signed := Message.set_id _ _).
    assert (Hfrom : Message.from signed = userId w) by reflexivity.
    clearbody signed.
    destruct (MessageType_eqb (Message.type signed) READ).
    + unfold emitMessageToConnectedClients, modify, handleMessageRead, getChat, save.
      unfold bind, gets, deref, ret, throw. cbn [chatRepo withEmitted userId].
      repeat match goal with
             | |- context [match ?x with _ => _ end] =>
                 match x with
                 | context [match _ with _ => _ end] => fail 1
                 | _ => destruct x eqn:?
                 end
             end; cbn [snd];
        (split;
         [ intros ev msg H; cbn [emitted withEmitted withChatRepo] in H;
           apply in_app_or in H; destruct H as [H | [H | []]];
           [now left | right; congruence]
         | intros c' msg H1 H2; cbn [chatRepo withEmitted withChatRepo] in H1;
           try (apply saveEntity_In in H1; destruct H1 as [-> | H1]);
           left; eauto ]).
      match goal with
      | H : find _ (chatRepo w) = Some ?c |- _ =>
          apply find_some in H; destruct H as [H _]; exists c;
          split; [exact H | exact H2]
      end.
    + unfold emitMessageToConnectedClients, modify, notAwaited, addMessageToChat, save.
      cbn [snd]. split.
      * intros ev msg H. cbn [emitted withEmitted withChatRepo] in H.
        apply in_app_or in H. destruct H as [H | [H | []]];
          [now left | right; congruence].
      * intros c' msg H1 H2. cbn [chatRepo withEmitted withChatRepo] in H1.
        apply saveEntity_In in H1. destruct H1 as [-> | H1]; [| left; eauto].
        cbn [Chat.messages Chat.set_messages] in H2.
        apply in_app_or in H2. destruct H2 as [H2 | [H2 | []]];
          [left; eauto | right; congruence].
Qed.
End Gateway.

(** C10.  Two payloads that differ only in [from] have the same outcome:
    the same result, the same events, the same repositories.  And what the
    handler emits or stores carries the configured [userId] as its sender. *)
Theorem gateway_sender_not_spoofable
        (svc : Nest.Services) (message : Message.t) (from1 from2 : string)
        (w : Nest.World) :
  Nest.ChatGateway.handleIncomingMessage svc (Message.set_from from1 message) w
  = Nest.ChatGateway.handleIncomingMessage svc (Message.set_from from2 message) w
  /\ senderIsLocalOrOld w
       (snd (Nest.ChatGateway.handleIncomingMessage svc (Message.set_from from1 message) w)).
Proof.
  split; [| apply gateway_sender_is_local].
  unfold Nest.ChatGateway.handleIncomingMessage, bind, gets.
  reflexivity.
Qed.

(** ** Read receipts *)

(** C4 (the code departs from the claim).  The local user acknowledges
    "msg-1" (time 100) and "msg-2" (time 200) of a chat.  With no entry for
    the reader in [chat.read], both receipts are dropped, in either order,
    and the chat is as before: no cursor names "msg-2".  With an entry
    naming the reader, the previous target is looked up under the reader's
    id, is not found, and the call ends in a [TypeError]. *)
Theorem read_receipts_record_no_cursor :
  snd (Nest.handleMessageRead Scenario.services Scenario.readSecond
         (snd (Nest.handleMessageRead Scenario.services Scenario.readFirst
                 (Scenario.readerNode []))))
  = Scenario.readerNode []
  /\ snd (Nest.handleMessageRead Scenario.services Scenario.readFirst
            (snd (Nest.handleMessageRead Scenario.services Scenario.readSecond
                    (Scenario.readerNode []))))
     = Scenario.readerNode []
  /\ Nest.handleMessageRead Scenario.services Scenario.readSecond
       (Scenario.readerNode ["me"])
     = (Throw TypeError, Scenario.readerNode ["me"]).
Proof. repeat split; vm_compute; reflexivity. Qed.

(** The file-backed [handleRead], for comparison. *)

Section LegacyRead.
Import Legacy.
Context (determineChatId : Message.t -> string).

(** A receipt for a resolved chat either is stale and changes nothing,
    or moves the sender's cursor to its target and notifies the
    sockets. *)
Lemma handleRead_outcome (message : Message.t) (body : string) (chat : Chat.t) (w : World) :
  chats w !! determineChatId message = Some chat ->
  Message.bodyString message = Some body ->
  handleRead determineChatId message w
  = (Ok tt,
     if staleRead chat (Message.from message) body then w
     else
       withEvents
         (events w ++ List.map (fun connection => (connection, "message", message))
                               (connections w))
         (withChats
            (<[Chat.chatId chat :=
                 Chat.set_read (setProperty (Message.from message) body (Chat.read chat))
                               chat]>
               (chats w)) w)).
Proof.
  intros Hc Hb. unfold handleRead, getChat.
  unfold bind at 1. rewrite Hc. rewrite Hb. cbn [deref bind ret].
  fold (staleRead chat (Message.from message) body).
  destruct (staleRead chat (Message.from message) body); reflexivity.
Qed.

(** The assignment writes the entry of every key but "__proto__", and of
    that one too when the object has an own entry of the name. *)
Lemma setProperty_insert (key value : string) (o : gmap string string) :
  key <> "__proto__" \/ is_Some (o !! key) ->
  setProperty key value o = <[key := value]> o.
Proof.
  intros H. unfold setProperty. destruct (o !! key) eqn:E; [reflexivity |].
  destruct H as [H | [x H]]; [| discriminate].
  apply String.eqb_neq in H. now rewrite H.
Qed.

(** Without an own entry, an assignment to "__proto__" leaves the object
    as it is. *)
Lemma setProperty_ignored (key value : string) (o : gmap string string) :
  key = "__proto__" ->
  o !! key = None ->
  setProperty key value o = o.
Proof.
  intros -> H. unfold setProperty. now rewrite H.
Qed.

Lemma insert_same_chat (chat : Chat.t) (m : gmap string Chat.t) :
  m !! Chat.chatId chat = Some chat ->
  <[Chat.chatId chat := chat]> m = m.
Proof. apply insert_id. Qed.

Lemma set_read_same (chat : Chat.t) : Chat.set_read (Chat.read chat) chat = chat.
Proof. now destruct chat. Qed.

(** X23.  [handleRead] keeps the later target whatever the order of
    arrival: two receipts of one sender for messages of the chat, the
    first-mentioned strictly older, applied to a chat whose recorded
    target (if it resolves) is not later than the older one, leave the same
    chats in either order; the [read] object is the one the assignment of
    the later target gives, which holds the sender's cursor on the later
    target for every sender id but "__proto__". *)
Lemma handleRead_order_independent (r1 r2 : Message.t) (b1 b2 : string)
      (x1 x2 : Message.t) (chat : Chat.t) (w : World) :
  Message.from r1 = Message.from r2 ->
  determineChatId r1 = Chat.chatId chat ->
  determineChatId r2 = Chat.chatId chat ->
  chats w !! Chat.chatId chat = Some chat ->
  Message.bodyString r1 = Some b1 ->
  Message.bodyString r2 = Some b2 ->
  find (fun m => String.eqb (Message.id m) b1) (Chat.messages chat) = Some x1 ->
  find (fun m => String.eqb (Message.id m) b2) (Chat.messages chat) = Some x2 ->
  Message.timeStamp x1 < Message.timeStamp x2 ->
  staleRead chat (Message.from r1) b1 = false ->
  chats (snd (handleRead determineChatId r2 (snd (handleRead determineChatId r1 w))))
  = chats (snd (handleRead determineChatId r1 (snd (handleRead determineChatId r2 w))))
  /\ (Chat.read <$>
        chats (snd (handleRead determineChatId r2 (snd (handleRead determineChatId r1 w))))
          !! Chat.chatId chat)
     = Some (setProperty (Message.from r2) b2 (Chat.read chat))
  /\ (Message.from r2 <> "__proto__" ->
      (Chat.read <$>
         chats (snd (handleRead determineChatId r2 (snd (handleRead determineChatId r1 w))))
           !! Chat.chatId chat)
      = Some (<[Message.from r2 := b2]> (Chat.read chat))).
Proof.
  intros Hf Hc1 Hc2 Hw Hb1 Hb2 Hx1 Hx2 Hlt Hfresh.
  assert (Hfresh2 : staleRead chat (Message.from r2) b2 = false).
  { revert Hfresh. unfold staleRead. rewrite Hf, Hx1, Hx2.
    destruct (match Chat.read chat !! Message.from r2 with
              | Some r => find _ (Chat.messages chat) | None => None end);
      [| reflexivity].
    intros H. apply Z.ltb_ge in H. apply Z.ltb_ge. lia. }
  enough (Hmain :
    chats (snd (handleRead determineChatId r2 (snd (handleRead determineChatId r1 w))))
    = chats (snd (handleRead determineChatId r1 (snd (handleRead determineChatId r2 w))))
    /\ (Chat.read <$>
          chats (snd (handleRead determineChatId r2 (snd (handleRead determineChatId r1 w))))
            !! Chat.chatId chat)
       = Some (setProperty (Message.from r2) b2 (Chat.read chat))).
  { destruct Hmain as [H1 H2]. repeat split; [exact H1 | exact H2 |].
    intros Hne. rewrite H2. now rewrite setProperty_insert by (left; exact Hne). }
  (* r1 first *)
  rewrite (handleRead_outcome r1 b1 chat w) by (rewrite ?Hc1; auto).
  rewrite Hfresh. cbn [snd].
  set (chat1 := Chat.set_read (setProperty (Message.from r1) b1 (Chat.read chat)) chat).
  set (w1 := withEvents _ _).
  assert (Hw1 : chats w1 !! determineChatId r2 = Some chat1).
  { rewrite Hc2. unfold w1. cbn. apply lookup_insert_eq. }
  rewrite (handleRead_outcome r2 b2 chat1 w1 Hw1 Hb2).
  (* r2 first *)
  rewrite (handleRead_outcome r2 b2 chat w) by (rewrite ?Hc2; auto).
  rewrite Hfresh2. cbn [snd].
  set (chat2 := Chat.set_read (setProperty (Message.from r2) b2 (Chat.read chat)) chat).
  set (w2 := withEvents _ (withChats (<[Chat.chatId chat := chat2]> _) _)).
  assert (Hw2 : chats w2 !! determineChatId r1 = Some chat2).
  { rewrite Hc1. unfold w2. cbn. apply lookup_insert_eq. }
  rewrite (handleRead_outcome r1 b1 chat2 w2 Hw2 Hb1).
  destruct (String.eqb (Message.from r2) "__proto__" && 
            match Chat.read chat !! Message.from r2 with Some _ => false | None => true end)
    eqn:Hproto.
  - (* the sender id is "__proto__" and the object has no such entry:
       no assignment changes the object *)
    apply andb_prop in Hproto. destruct Hproto as [Hp Hnone].
    apply String.eqb_eq in Hp.
    destruct (Chat.read chat !! Message.from r2) eqn:Hl; [discriminate |].
    assert (E1 : chat1 = chat).
    { unfold chat1. rewrite Hf, setProperty_ignored by assumption. apply set_read_same. }
    assert (E2 : chat2 = chat).
    { unfold chat2. rewrite setProperty_ignored by assumption. apply set_read_same. }
    assert (Hs : forall b, staleRead chat (Message.from r2) b = false).
    { intros b. unfold staleRead. rewrite Hl. reflexivity. }
    rewrite E1, E2, Hf, !Hs. cbn [snd].
    unfold w1, w2. rewrite E1, E2. cbn [chats withEvents withChats].
    assert (Hig : forall b, setProperty (Message.from r2) b (Chat.read chat)
                            = Chat.read chat).
    { intros b. now apply setProperty_ignored. }
    rewrite !Hig, !set_read_same.
    rewrite !(insert_same_chat chat (chats w) Hw).
    split; [reflexivity |]. now rewrite Hw.
  - (* the assignments write the sender's entry *)
    assert (Hins : forall b, setProperty (Message.from r2) b (Chat.read chat)
                             = <[Message.from r2 := b]> (Chat.read chat)).
    { intros b. apply setProperty_insert.
      apply andb_false_iff in Hproto. destruct Hproto as [Hp | Hp].
      - left. now apply String.eqb_neq.
      - right. destruct (Chat.read chat !! Message.from r2); [eauto | discriminate]. }
    assert (Hs12 : staleRead chat1 (Message.from r2) b2 = false).
    { unfold staleRead, chat1. cbn [Chat.read Chat.set_read Chat.messages].
      rewrite Hf, Hins, lookup_insert_eq, Hx1, Hx2. apply Z.ltb_ge. lia. }
    rewrite Hs12. cbn [snd].
    assert (Hs21 : staleRead chat2 (Message.from r1) b1 = true).
    { unfold staleRead, chat2. cbn [Chat.read Chat.set_read Chat.messages].
      rewrite Hf, Hins, lookup_insert_eq, Hx1, Hx2. apply Z.ltb_lt. lia. }
    rewrite Hs21.
    assert (E : Chat.set_read (setProperty (Message.from r2) b2 (Chat.read chat1)) chat1
                = chat2).
    { unfold chat1, chat2. cbn [Chat.read Chat.set_read]. rewrite Hf, !Hins.
      rewrite setProperty_insert by (right; rewrite lookup_insert_eq; eauto).
      rewrite insert_insert_eq. reflexivity. }
    rewrite E. unfold w1, w2.
    cbn [chats withEvents withChats Chat.chatId chat1 Chat.set_read].
    unfold chat1. cbn [Chat.chatId Chat.set_read].
    rewrite insert_insert_eq. split; [reflexivity |].
    rewrite lookup_insert_eq. reflexivity.
Qed.
End LegacyRead.

(** ** Pagination (ChatService.getChatMessages) *)

Lemma slice_within {A : Type} (l : list A) (start end_ : Z) :
  0 <= start <= end_ ->
  end_ <= Z.of_nat (length l) ->
  Js.slice l start end_
  = firstn (Z.to_nat (end_ - start)) (skipn (Z.to_nat start) l).
Proof.
  intros H1 H2. unfold Js.slice, Js.relativeIndex.
  replace (start <? 0) with false by (symmetry; apply Z.ltb_ge; lia).
  replace (end_ <? 0) with false by (symmetry; apply Z.ltb_ge; lia).
  now rewrite !Z.min_l by lia.
Qed.

(** A slice that ends at a non-negative index holds elements from before
    that index only. *)
Lemma slice_before {A : Type} (l : list A) (start end_ : Z) (x : A) :
  0 <= end_ ->
  In x (Js.slice l start end_) ->
  In x (firstn (Z.to_nat end_) l).
Proof.
  intros He. unfold Js.slice.
  set (k := Js.relativeIndex _ start). set (final := Js.relativeIndex _ end_).
  assert (Hf : 0 <= final <= end_).
  { unfold final, Js.relativeIndex.
    replace (end_ <? 0) with false by (symmetry; apply Z.ltb_ge; lia). lia. }
  assert (Hk : 0 <= k).
  { unfold k, Js.relativeIndex. destruct (start <? 0) eqn:E; [lia |].
    apply Z.ltb_ge in E. lia. }
  intros Hin.
  destruct (Z.le_gt_cases final k) as [Hle | Hgt].
  - replace (Z.to_nat (final - k)) with 0%nat in Hin by lia. destruct Hin.
  - assert (Hsplit : firstn (Z.to_nat final) l
                     = firstn (Z.to_nat k) l
                         ++ firstn (Z.to_nat (final - k)) (skipn (Z.to_nat k) l)).
    { replace (Z.to_nat final) with (Z.to_nat k + Z.to_nat (final - k))%nat by lia.
      symmetry. apply take_take_drop. }
    assert (Hin' : In x (firstn (Z.to_nat final) l)).
    { rewrite Hsplit. apply in_or_app. now right. }
    replace (Z.to_nat end_) with (Z.to_nat final + (Z.to_nat end_ - Z.to_nat final))%nat
      by lia.
    rewrite <- take_take_drop. apply in_or_app. now left.
Qed.

Section Pagination.
Import Nest.

(** X7.  Offset mode on a full page inside the log: [limit] messages
    ending [page * limit] messages before the newest, with [hasMore]
    telling whether the page starts at the first message. *)
Lemma offset_page_within_range (chatId : string) (from : option string)
      (p limit : Z) (chat : Chat.t) (w : World) :
  getChat chatId w = (Ok (Some chat), w) ->
  p <> 0 ->
  0 <= limit ->
  0 <= p * limit ->
  0 <= Z.of_nat (length (Chat.messages chat)) - (p + 1) * limit ->
  getChatMessages chatId from (Some p) limit w
  = (Ok (negb (Z.of_nat (length (Chat.messages chat)) - (p + 1) * limit =? 0),
         firstn (Z.to_nat limit)
                (skipn (Z.to_nat (Z.of_nat (length (Chat.messages chat)) - (p + 1) * limit))
                       (Chat.messages chat))), w).
Proof.
  intros Hc Hp Hl Hpl Hs. unfold getChatMessages.
  unfold bind at 1. rewrite Hc. run.
  replace (Js.truthyNumber p) with true
    by (symmetry; unfold Js.truthyNumber; apply negb_true_iff, Z.eqb_neq; exact Hp).
  unfold ret.
  rewrite slice_within by lia.
  set (len := Z.of_nat (length (Chat.messages chat))).
  replace (len - p * limit - limit) with (len - (p + 1) * limit) by lia.
  replace (len - p * limit - (len - (p + 1) * limit)) with limit by lia.
  reflexivity.
Qed.

(** X8.  Cursor mode: whatever the limit, every message returned stands
    before the message whose id is [from]. *)
Lemma cursor_page_is_before_from (chatId f : string) (limit : Z)
      (chat : Chat.t) (w : World) (m : Message.t) :
  getChat chatId w = (Ok (Some chat), w) ->
  Js.truthyString f = true ->
  0 <= Js.findIndex (fun m => String.eqb (Message.id m) f) (Chat.messages chat) ->
  In m (messagesOf (getChatMessages chatId (Some f) None limit w)) ->
  In m (firstn (Z.to_nat (Js.findIndex (fun m => String.eqb (Message.id m) f)
                                       (Chat.messages chat)))
               (Chat.messages chat)).
Proof.
  intros Hc Hf He. unfold getChatMessages, messagesOf.
  unfold bind at 1. rewrite Hc. run. rewrite Hf. unfold ret. cbn [fst].
  now apply slice_before.
Qed.
End Pagination.

(** C9 (the code departs from the claim).  A chat of five messages read
    three at a time: page 0 is the newest three, and page 1, which should
    hold the two oldest, is empty, because the negative start index is
    taken from the end of the array.  And with page 0 and a cursor both
    supplied, the cursor is honoured, not the page. *)
Theorem last_partial_page_is_lost :
  Nest.getChatMessages "bob" None (Some 0) 3 Scenario.pagedNode
  = (Ok (true, skipn 2 Scenario.five), Scenario.pagedNode)
  /\ Nest.getChatMessages "bob" None (Some 1) 3 Scenario.pagedNode
     = (Ok (true, []), Scenario.pagedNode)
  /\ Nest.getChatMessages "bob" (Some "a4") (Some 0) 3 Scenario.pagedNode
     = (Ok (true, firstn 3 (skipn 1 Scenario.five)), Scenario.pagedNode).
Proof. repeat split; vm_compute; reflexivity. Qed.

(** ** Edits and deletions (editMessage, editReply) *)

Lemma findIndex_split {A : Type} (p : A -> bool) (l : list A) (i : Z) :
  Js.findIndex p l = i ->
  0 <= i ->
  exists pre x post,
    l = pre ++ x :: post /\ Z.of_nat (length pre) = i
    /\ Forall (fun y => p y = false) pre /\ p x = true.
Proof.
  unfold Js.findIndex. revert i. induction l as [|a l IH]; simpl; intros i H Hi.
  - lia.
  - destruct (p a) eqn:E.
    + exists [], a, l. repeat split; auto; simpl; lia.
    + rewrite findIndexFrom_shift in H by lia.
      destruct (Js.findIndexFrom p l 0 =? -1) eqn:E2; [lia |].
      apply Z.eqb_neq in E2.
      destruct (findIndexFrom_bounds p l 0) as [B | B]; [congruence |].
      destruct (IH _ eq_refl (proj1 B)) as (pre & x & post & -> & Hlen & Hpre & Hx).
      exists (a :: pre), x, post. repeat split; auto; simpl length; lia.
Qed.

(** Reading and writing at the length of a prefix reaches the element
    behind it. *)
Lemma at_middle {A : Type} (pre post : list A) (x : A) :
  Js.at_ (pre ++ x :: post) (Z.of_nat (length pre)) = Some x.
Proof.
  unfold Js.at_.
  replace (Z.of_nat (length pre) <? 0) with false by (symmetry; apply Z.ltb_ge; lia).
  rewrite Nat2Z.id. induction pre; simpl; auto.
Qed.

Lemma setAt_middle {A : Type} (pre post : list A) (x v : A) :
  Js.setAt (pre ++ x :: post) (Z.of_nat (length pre)) v = pre ++ v :: post.
Proof.
  unfold Js.setAt.
  replace (Z.of_nat (length pre) <? 0) with false by (symmetry; apply Z.ltb_ge; lia).
  rewrite Nat2Z.id. induction pre; simpl; [reflexivity | now f_equal].
Qed.

(** A write at [-1] changes no element. *)
Lemma setAt_absent {A : Type} (l : list A) (v : A) : Js.setAt l (-1) v = l.
Proof. reflexivity. Qed.

(** [findIndex] yields [-1] or an index. *)
Lemma findIndex_cases {A : Type} (p : A -> bool) (l : list A) :
  Js.findIndex p l = -1 \/ 0 <= Js.findIndex p l.
Proof.
  destruct (findIndexFrom_bounds p l 0) as [H | H]; [now left | right].
  unfold Js.findIndex. lia.
Qed.

(** Writing at the index [findIndex] found an element that satisfies the
    predicate again leaves the index where it was. *)
Lemma findIndex_setAt {A : Type} (p : A -> bool) (l : list A) (v : A) :
  p v = true ->
  Js.findIndex p (Js.setAt l (Js.findIndex p l) v) = Js.findIndex p l.
Proof.
  intros Hv. destruct (findIndex_cases p l) as [H | H].
  - rewrite H. now rewrite setAt_absent.
  - destruct (findIndex_split p l _ eq_refl H) as (pre & x & post & E & Hlen & Hpre & Hx).
    rewrite <- Hlen. rewrite E at 1. rewrite setAt_middle.
    now apply findIndex_skip.
Qed.

(** The later of two writes at one index wins. *)
Lemma setAt_setAt {A : Type} (l : list A) (i : Z) (a b : A) :
  Js.setAt (Js.setAt l i a) i b = Js.setAt l i b.
Proof.
  unfold Js.setAt. destruct (i <? 0); [reflexivity |].
  apply list_insert_insert_eq.
Qed.

(** At a found index stands an element that satisfies the predicate. *)
Lemma findIndex_at {A : Type} (p : A -> bool) (l : list A) :
  0 <= Js.findIndex p l ->
  exists x, Js.at_ l (Js.findIndex p l) = Some x /\ p x = true.
Proof.
  intros H.
  destruct (findIndex_split p l _ eq_refl H) as (pre & x & post & E & Hlen & Hpre & Hx).
  exists x. split; [| exact Hx].
  rewrite <- Hlen. rewrite E at 1. apply at_middle.
Qed.

(** A write at a found index is read back. *)
Lemma at_setAt_found {A : Type} (p : A -> bool) (l : list A) (v : A) :
  0 <= Js.findIndex p l ->
  Js.at_ (Js.setAt l (Js.findIndex p l) v) (Js.findIndex p l) = Some v.
Proof.
  intros H.
  destruct (findIndex_split p l _ eq_refl H) as (pre & x & post & E & Hlen & Hpre & Hx).
  rewrite <- Hlen. rewrite E at 1. rewrite setAt_middle. apply at_middle.
Qed.

Section Edits.
Import Legacy.

(** Writing back the chats a store has changes nothing. *)
Lemma withChats_id (w : World) : withChats (chats w) w = w.
Proof. now destruct w. Qed.

(** [editMessage] loads the chat and applies [editEffect] to it. *)
Lemma editMessage_outcome (now : Z) (chatId : string) (m : Message.t) (w : World) :
  editMessage now chatId m w
  = match chats w !! chatId with
    | Some chat => applyEffect (editEffect now m chat) w
    | None => (Throw (NotFoundException chatId), w)
    end.
Proof.
  unfold editMessage, editReply, editEffect, getChat, persistChat.
  destruct (truthySubject (Message.subject m)).
  - unfold bind at 1. destruct (chats w !! chatId) as [chat|]; [| reflexivity].
    destruct (Js.findIndex _ _ =? -1); [reflexivity |].
    unfold bind at 1. destruct (Js.at_ (Chat.messages chat) _) as [target|];
      [| reflexivity].
    cbn [deref ret].
    destruct (Js.findIndex _ (Message.replies target) =? -1); [reflexivity |].
    unfold bind at 1. destruct (Js.at_ (Message.replies target) _) as [reply|];
      reflexivity.
  - unfold bind at 1. destruct (chats w !! chatId) as [chat|]; [| reflexivity].
    destruct (Message.type m); try reflexivity.
    + destruct (Message.body m); reflexivity.
    + unfold bind at 1. unfold bind at 1.
      destruct (Js.at_ (Chat.messages chat) _) as [target|]; reflexivity.
Qed.

(** Applying the edit to the chat it produced: the effect is the one the
    edit has on the original chat at the later time. *)
Lemma editEffect_again (t1 t2 : Z) (m : Message.t) (chat c1 : Chat.t) :
  editEffect t1 m chat = Persist c1 ->
  Chat.chatId c1 = Chat.chatId chat
  /\ editEffect t2 m c1 = editEffect t2 m chat
  /\ exists c2, editEffect t2 m chat = Persist c2 /\ Chat.chatId c2 = Chat.chatId chat.
Proof.
  unfold editEffect.
  destruct (truthySubject (Message.subject m)) eqn:Hsub.
  - set (P := isSubject (Message.subject m)).
    set (Q := fun r : Message.t => String.eqb (Message.id r) (Message.id m)).
    destruct (findIndex_cases P (Chat.messages chat)) as [Hi | Hi].
    { rewrite Hi. cbn. discriminate. }
    replace (Js.findIndex P (Chat.messages chat) =? -1) with false
      by (symmetry; apply Z.eqb_neq; lia).
    destruct (findIndex_at P _ Hi) as (target & Ht & HP). rewrite Ht.
    destruct (findIndex_cases Q (Message.replies target)) as [Hj | Hj].
    { rewrite Hj. cbn. discriminate. }
    replace (Js.findIndex Q (Message.replies target) =? -1) with false
      by (symmetry; apply Z.eqb_neq; lia).
    destruct (findIndex_at Q _ Hj) as (reply & Hr & HQ). rewrite Hr.
    intros H. injection H as <-. split; [reflexivity |]. split; [| eauto].
    cbn [Chat.messages Chat.set_messages].
    rewrite (findIndex_setAt P) by exact HP.
    replace (Js.findIndex P (Chat.messages chat) =? -1) with false
      by (symmetry; apply Z.eqb_neq; lia).
    rewrite (at_setAt_found P) by exact Hi.
    cbn [Message.replies Message.set_replies].
    rewrite (findIndex_setAt Q) by exact HQ.
    replace (Js.findIndex Q (Message.replies target) =? -1) with false
      by (symmetry; apply Z.eqb_neq; lia).
    rewrite (at_setAt_found Q) by exact Hj.
    rewrite !setAt_setAt. reflexivity.
  - destruct (Message.type m);
      try (intros H; injection H as <-; split; [reflexivity |];
           split; [reflexivity | eauto]).
    + destruct (Message.body m) as [s | raw | n f | f];
        try (intros H; injection H as <-; split; [reflexivity |];
             split; [reflexivity | eauto]).
      set (e := parseMessage raw).
      set (P := fun mes : Message.t => String.eqb (Message.id mes) (Message.id e)).
      intros H. injection H as <-. split; [reflexivity |]. split; [| eauto].
      cbn [Chat.messages Chat.set_messages].
      rewrite (findIndex_setAt P) by apply String.eqb_refl.
      rewrite setAt_setAt. reflexivity.
    + set (P := fun mes : Message.t => String.eqb (Message.id mes) (Message.id m)).
      destruct (findIndex_cases P (Chat.messages chat)) as [Hi | Hi].
      { rewrite Hi. cbn. discriminate. }
      destruct (findIndex_at P _ Hi) as (target & Ht & HP). rewrite Ht.
      intros H. injection H as <-. split; [reflexivity |]. split; [| eauto].
      cbn [Chat.messages Chat.set_messages].
      rewrite (findIndex_setAt P) by exact HP.
      rewrite (at_setAt_found P) by exact Hi.
      rewrite setAt_setAt. reflexivity.
Qed.

(** Without a subject the effect does not depend on the clock. *)
Lemma editEffect_clock (t1 t2 : Z) (m : Message.t) (chat : Chat.t) :
  truthySubject (Message.subject m) = false ->
  editEffect t2 m chat = editEffect t1 m chat.
Proof. intros H. unfold editEffect. now rewrite H. Qed.

(** An EDIT without a subject whose target is not in the chat leaves the
    store as it was and raises nothing. *)
Lemma edit_of_absent_target_changes_nothing (now : Z) (chatId : string)
      (m raw : Message.t) (chat : Chat.t) (w : World) :
  chats w !! chatId = Some chat ->
  Chat.chatId chat = chatId ->
  truthySubject (Message.subject m) = false ->
  Message.type m = EDIT ->
  Message.body m = BMessage raw ->
  Js.findIndex (fun mes => String.eqb (Message.id mes) (Message.id (parseMessage raw)))
               (Chat.messages chat) = -1 ->
  editMessage now chatId m w = (Ok tt, w).
Proof.
  intros Hc Hid Hsub Ht Hb Hi. rewrite editMessage_outcome, Hc.
  unfold editEffect. rewrite Hsub, Ht, Hb, Hi, setAt_absent.
  replace (Chat.set_messages (Chat.messages chat) chat) with chat by (now destruct chat).
  cbn [applyEffect]. rewrite Hid, (insert_id _ _ _ Hc). now rewrite withChats_id.
Qed.

(** X22.  An edit of a reply whose parent, or whose reply, is not in the
    chat leaves the store as it was and raises nothing, whatever its
    type. *)
Lemma reply_edit_of_absent_target_changes_nothing (now : Z) (chatId : string)
      (m : Message.t) (chat : Chat.t) (w : World) :
  chats w !! chatId = Some chat ->
  truthySubject (Message.subject m) = true ->
  (Js.findIndex (isSubject (Message.subject m)) (Chat.messages chat) = -1
   \/ exists target,
        Js.at_ (Chat.messages chat)
               (Js.findIndex (isSubject (Message.subject m)) (Chat.messages chat))
        = Some target
        /\ Js.findIndex (fun r => String.eqb (Message.id r) (Message.id m))
                        (Message.replies target) = -1) ->
  editMessage now chatId m w = (Ok tt, w).
Proof.
  intros Hc Hsub H. rewrite editMessage_outcome, Hc.
  unfold editEffect. rewrite Hsub.
  destruct H as [Hi | (target & Ht & Hj)].
  - now rewrite Hi.
  - rewrite Ht, Hj. now destruct (_ =? -1).
Qed.
End Edits.

(** C8 (amended).  Applying an edit a second time, at time [t2] after a
    first application at time [t1], leaves the chats as a single
    application at time [t2] does.  For an edit without a subject (a
    top-level edit) the time plays no part: twice is once.  For an edit of
    a reply (subject set) the second application stamps [updated] again,
    so the state is that of one application at the later time. *)
Theorem edit_twice_is_edit_at_the_later_time
        (t1 t2 : Z) (chatId : string) (m : Message.t) (w : Legacy.World) :
  snd (Legacy.editMessage t2 chatId m (snd (Legacy.editMessage t1 chatId m w)))
  = snd (Legacy.editMessage t2 chatId m w)
  /\ (Legacy.truthySubject (Message.subject m) = false ->
      snd (Legacy.editMessage t2 chatId m (snd (Legacy.editMessage t1 chatId m w)))
      = snd (Legacy.editMessage t1 chatId m w)).
Proof.
  assert (G : snd (Legacy.editMessage t2 chatId m (snd (Legacy.editMessage t1 chatId m w)))
              = snd (Legacy.editMessage t2 chatId m w)).
  { rewrite (editMessage_outcome t1 chatId m w).
    destruct (Legacy.chats w !! chatId) as [chat|] eqn:Hc; cbn [snd]; [| reflexivity].
    destruct (editEffect t1 m chat) as [c1 | | e] eqn:He; cbn [applyEffect snd];
      try reflexivity.
    destruct (editEffect_again t1 t2 m chat c1 He) as (Hid & Hagain & c2 & H2 & Hid2).
    rewrite !editMessage_outcome. cbn [Legacy.chats Legacy.withChats]. rewrite Hc, H2.
    rewrite Hid.
    destruct (decide (Legacy.Chat.chatId chat = chatId)) as [E | Hne].
    - subst chatId.
      rewrite lookup_insert_eq, Hagain, H2. cbn [applyEffect snd Legacy.chats Legacy.withChats].
      unfold Legacy.withChats. cbn. rewrite Hid2. now rewrite insert_insert_eq.
    - rewrite lookup_insert_ne by exact Hne. rewrite Hc, H2.
      cbn [applyEffect snd Legacy.chats Legacy.withChats].
      unfold Legacy.withChats. cbn. rewrite Hid2. now rewrite insert_insert_eq. }
  split; [exact G |].
  intros Hsub. rewrite G. rewrite !editMessage_outcome.
  destruct (Legacy.chats w !! chatId) as [chat|]; [| reflexivity].
  now rewrite (editEffect_clock t1 t2 m chat Hsub).
Qed.


(** C7 (the code departs from the claim).  A DELETE without a subject
    whose id names no message of the chat: the element at index [-1] is
    [undefined] and writing its [body] raises a [TypeError].  (An EDIT with
    an absent target, by contrast, raises nothing and leaves the store as
    it was.) *)
Theorem delete_of_absent_target_throws :
  Legacy.editMessage 1000 "c1" Scenario.deleteAbsent Scenario.fileNode
  = (Throw TypeError, Scenario.fileNode)
  /\ Legacy.editMessage 1000 "c1" Scenario.editAbsent Scenario.fileNode
     = (Ok tt, Scenario.fileNode).
Proof. split; vm_compute; reflexivity. Qed.

(** C8 (counterexample).  The same EDIT of a reply applied at time 1 and
    again at time 2: after the first application the reply is stamped 1,
    after the second it is stamped 2, and the two stores differ. *)
Lemma reply_edit_twice_differs_from_once :
  Scenario.stampOfReply
    (snd (Legacy.editMessage 1 "c1" Scenario.editOfReply Scenario.fileNode))
  = Some 1
  /\ Scenario.stampOfReply
       (snd (Legacy.editMessage 2 "c1" Scenario.editOfReply
               (snd (Legacy.editMessage 1 "c1" Scenario.editOfReply Scenario.fileNode))))
     = Some 2
  /\ snd (Legacy.editMessage 2 "c1" Scenario.editOfReply
            (snd (Legacy.editMessage 1 "c1" Scenario.editOfReply Scenario.fileNode)))
     <> snd (Legacy.editMessage 1 "c1" Scenario.editOfReply Scenario.fileNode).
Proof.
  split; [vm_compute; reflexivity |]. split; [vm_compute; reflexivity |].
  intros H. apply (f_equal Scenario.stampOfReply) in H.
  vm_compute in H. discriminate.
Qed.

(** * Further properties of the services *)

(** ** More on the JavaScript primitives *)

(** Nothing satisfies the predicate: [findIndex] yields [-1]. *)
Lemma findIndex_none {A : Type} (p : A -> bool) (l : list A) :
  Forall (fun y => p y = false) l -> Js.findIndex p l = -1.
Proof.
  unfold Js.findIndex. intros H. generalize 0.
  induction H as [|y l Hy Hl IH]; intros i; simpl; [reflexivity |].
  now rewrite Hy, IH.
Qed.

(** Slicing from 0 to the length copies the array. *)
Lemma slice_all {A : Type} (l : list A) : Js.slice l 0 (Z.of_nat (length l)) = l.
Proof.
  rewrite slice_within by lia. rewrite Z.sub_0_r, Nat2Z.id.
  simpl. apply firstn_all.
Qed.

(** A window of width [limit] never yields more than [limit] elements,
    wherever it lies and however its bounds wrap. *)
Lemma slice_window_length {A : Type} (l : list A) (end_ limit : Z) :
  0 <= limit ->
  Z.of_nat (length (Js.slice l (end_ - limit) end_)) <= limit.
Proof.
  intros Hl. unfold Js.slice.
  rewrite length_take.
  set (len := Z.of_nat (length l)).
  assert (Z.of_nat (Z.to_nat (Js.relativeIndex len end_
                              - Js.relativeIndex len (end_ - limit))) <= limit).
  { unfold Js.relativeIndex.
    destruct (end_ <? 0) eqn:E1; destruct (end_ - limit <? 0) eqn:E2;
      try apply Z.ltb_lt in E1; try apply Z.ltb_ge in E1;
      try apply Z.ltb_lt in E2; try apply Z.ltb_ge in E2; lia. }
  lia.
Qed.

Section MoreSignatureChain.
Import Nest.
Context (svc : Services).

Lemma set_signatures_same (m : Message.t) :
  Message.set_signatures (Message.signatures m) m = m.
Proof. now destruct m. Qed.

End MoreSignatureChain.

(** X1.  Two hops: a message signed by one node and then by a second node
    with a different signature still verifies, for the first signer, on a
    node that holds the first signer's public key. *)
Theorem two_hop_chain_verifies
        (svc : Nest.Services) (contact : Contact.t) (message : Message.t)
        (ka kb k : Key.t) (wa wb w : Nest.World) :
  Nest.getKey Private wa = (Ok (Some ka), wa) ->
  Js.truthyString (Key.key ka) = true ->
  Nest.getKey Private wb = (Ok (Some kb), wb) ->
  Js.truthyString (Key.key kb) = true ->
  Nest.getPublicKeyByUserID (Contact.id contact) w = (Ok (Some k), w) ->
  Js.truthyString (Key.key k) = true ->
  (forall d, Nest.verifySignature svc d
               (Nest.createBase64Signature svc d (Key.key ka)) (Key.key k) = true) ->
  Nest.createBase64Signature svc (nodeSigned svc ka message) (Key.key kb)
  <> Nest.createBase64Signature svc message (Key.key ka) ->
  Nest.appendSignatureToMessage svc message wa
  = (Ok (Some (nodeSigned svc ka message)), wa)
  /\ Nest.appendSignatureToMessage svc (nodeSigned svc ka message) wb
     = (Ok (Some (nodeSigned svc kb (nodeSigned svc ka message))), wb)
  /\ Nest.verifyMessageSignature svc contact
       (nodeSigned svc kb (nodeSigned svc ka message))
       (Nest.createBase64Signature svc message (Key.key ka)) w
     = (Ok true, w).
Proof.
  intros Ha Hta Hb Htb Hk Htk Hsound Hdiff.
  split; [now apply appendSignatureToMessage_signs |].
  split; [now apply appendSignatureToMessage_signs |].
  rewrite (older_signature_verification svc contact _
             [Nest.createBase64Signature svc (nodeSigned svc ka message) (Key.key kb)]
             (Message.signatures message) _ k w);
    [ | reflexivity | discriminate | | exact Hk | exact Htk ].
  - replace (Message.set_signatures (Message.signatures message)
               (nodeSigned svc kb (nodeSigned svc ka message)))
      with message by (now destruct message).
    now rewrite Hsound.
  - constructor; [| constructor]. now apply String.eqb_neq.
Qed.

Lemma two_hop_chain_verifies_witness :
  Nest.verifyMessageSignature Scenario.services Scenario.alice
    (nodeSigned Scenario.services (Key.mk (Some "bob") "key-of-bob" Private)
       (nodeSigned Scenario.services (Key.mk (Some "alice") "key-of-alice" Private)
          Scenario.hello))
    (Nest.createBase64Signature Scenario.services Scenario.hello "key-of-alice")
    Scenario.bobNode
  = (Ok true, Scenario.bobNode).
Proof.
  apply (two_hop_chain_verifies
           Scenario.services Scenario.alice Scenario.hello
           (Key.mk (Some "alice") "key-of-alice" Private) (Key.mk (Some "bob") "key-of-bob" Private)
           (Key.mk (Some "alice") "key-of-alice" Public)
           Scenario.aliceNode Scenario.bobNode Scenario.bobNode);
    try reflexivity.
  - intros d. apply String.eqb_refl.
  - vm_compute. discriminate.
Defined.

(** X2.  A signature that is not among the message's signatures is not
    refused by the lookup: [findIndex] yields [-1], which is truthy, and the
    signature is checked against the message with all of its signatures. *)
Theorem unattached_signature_is_checked_against_the_whole_message
        (svc : Nest.Services) (contact : Contact.t) (message : Message.t)
        (signature : string) (k : Key.t) (w : Nest.World) :
  Forall (fun s => String.eqb s signature = false) (Message.signatures message) ->
  Nest.getPublicKeyByUserID (Contact.id contact) w = (Ok (Some k), w) ->
  Js.truthyString (Key.key k) = true ->
  Nest.verifyMessageSignature svc contact message signature w
  = (Ok (Nest.verifySignature svc message signature (Key.key k)), w).
Proof.
  intros Hs Hk Ht. unfold Nest.verifyMessageSignature.
  rewrite findIndex_none by exact Hs.
  cbn [Js.truthyNumber Z.eqb negb]. unfold bind at 1. rewrite Hk.
  run. rewrite Ht. cbn [negb]. unfold ret.
  change (-1 + 1) with 0. now rewrite slice_all, set_signatures_same.
Qed.

Lemma unattached_signature_is_checked_against_the_whole_message_witness :
  Nest.verifyMessageSignature Scenario.services Scenario.alice Scenario.hello
    "forged" Scenario.bobNode
  = (Ok false, Scenario.bobNode).
Proof.
  apply (unattached_signature_is_checked_against_the_whole_message
           Scenario.services Scenario.alice Scenario.hello "forged"
           (Key.mk (Some "alice") "key-of-alice" Public) Scenario.bobNode);
    [constructor | reflexivity | reflexivity].
Defined.

(** X3.  Public-key resolution that fails: the cached record of the
    contact carries no key material and the contact's node returns no key
    (or an empty one).  A signature behind the newest one is then reported
    invalid, and nothing is stored. *)
Theorem verification_without_any_public_key_fails
        (svc : Nest.Services) (contact : Contact.t) (message : Message.t)
        (signature : string) (k : Key.t) (w : Nest.World) :
  Js.findIndex (fun s => String.eqb s signature) (Message.signatures message) <> 0 ->
  Nest.getPublicKeyByUserID (Contact.id contact) w = (Ok (Some k), w) ->
  Js.truthyString (Key.key k) = false ->
  match Nest.getContactPublicKey svc (Contact.location contact) with
  | Some base64key => Js.truthyString base64key = false
  | None => True
  end ->
  Nest.verifyMessageSignature svc contact message signature w = (Ok false, w).
Proof.
  intros Hi Hk Ht Hf. unfold Nest.verifyMessageSignature.
  replace (Js.truthyNumber _) with true
    by (symmetry; unfold Js.truthyNumber; now apply negb_true_iff, Z.eqb_neq).
  cbn [negb]. unfold bind at 1. rewrite Hk. run. rewrite Ht. cbn [negb].
  destruct (Nest.getContactPublicKey svc (Contact.location contact)) as [b|];
    [| reflexivity].
  now rewrite Hf.
Qed.

Lemma verification_without_any_public_key_fails_witness :
  Nest.verifyMessageSignature Scenario.services Scenario.alice
    (Message.set_signatures ["newer"; "older"] Scenario.hello) "older"
    (Nest.withKeyRepo [Key.mk (Some "alice") "" Public] Scenario.bobNode)
  = (Ok false, Nest.withKeyRepo [Key.mk (Some "alice") "" Public] Scenario.bobNode).
Proof.
  apply (verification_without_any_public_key_fails
           Scenario.services Scenario.alice
           (Message.set_signatures ["newer"; "older"] Scenario.hello) "older"
           (Key.mk (Some "alice") "" Public)
           (Nest.withKeyRepo [Key.mk (Some "alice") "" Public] Scenario.bobNode));
    [vm_compute; discriminate | reflexivity | reflexivity | exact I].
Defined.

(** A record without a [userId] is found by no search for a user id. *)
Lemma find_without_owner (p : Key.t -> bool) (l : list Key.t) (k : Key.t) :
  p k = false ->
  find p (l ++ [k]) = find p l.
Proof.
  intros H. induction l as [|x l IH]; cbn [app find].
  - now rewrite H.
  - now rewrite IH.
Qed.

(** X4.  Public-key resolution that succeeds: the cached record carries no
    key material and the contact's node returns a key.  The signature is
    checked under the fetched key against the message with the signatures
    behind it.  The key is stored as a public-key record, but under the
    property [userID]: the record has no [userId], and every search for a
    public key by user id finds afterwards what it found before. *)
Theorem fetched_public_key_is_used_and_stored_without_owner
        (svc : Nest.Services) (contact : Contact.t) (message : Message.t)
        (newer older : list string) (sig base64key : string) (k : Key.t)
        (w : Nest.World) :
  Message.signatures message = newer ++ sig :: older ->
  newer <> [] ->
  Forall (fun s => String.eqb s sig = false) newer ->
  Nest.getPublicKeyByUserID (Contact.id contact) w = (Ok (Some k), w) ->
  Js.truthyString (Key.key k) = false ->
  Nest.getContactPublicKey svc (Contact.location contact) = Some base64key ->
  Js.truthyString base64key = true ->
  let w' := Nest.withKeyRepo (Nest.keyRepo w ++ [Key.mk None base64key Public]) w in
  Nest.verifyMessageSignature svc contact message sig w
  = (Ok (Nest.verifySignature svc (Message.set_signatures older message) sig base64key),
     w')
  /\ forall userID,
      fst (Nest.getPublicKeyByUserID userID w') = fst (Nest.getPublicKeyByUserID userID w).
Proof.
  intros Hs Hne Hnew Hk Ht Hf Hb w'. split.
  - unfold Nest.verifyMessageSignature. rewrite Hs.
    rewrite findIndex_skip by (auto using String.eqb_refl).
    assert (Hpos : Js.truthyNumber (Z.of_nat (length newer)) = true).
    { unfold Js.truthyNumber. destruct newer; [congruence | reflexivity]. }
    rewrite Hpos. cbn [negb]. unfold bind at 1. rewrite Hk.
    run. rewrite Ht. cbn [negb]. rewrite Hf, Hb. cbn [negb].
    unfold Nest.addContactPublicKey, bind, modify, ret.
    now rewrite slice_suffix.
  - intros userID. unfold Nest.getPublicKeyByUserID, gets, w'.
    cbn [fst Nest.keyRepo Nest.withKeyRepo].
    now rewrite find_without_owner.
Qed.

(** Signing only reads the store, and a signed message differs from
    the one submitted in its signatures only, which gain one entry at the
    front. *)
Theorem signing_prepends_one_signature_and_writes_nothing
        (svc : Nest.Services) (message : Message.t) (w : Nest.World) :
  snd (Nest.appendSignatureToMessage svc message w) = w
  /\ forall signed,
      fst (Nest.appendSignatureToMessage svc message w) = Ok (Some signed) ->
      Message.set_signatures (Message.signatures message) signed = message
      /\ exists signature,
          Message.signatures signed = signature :: Message.signatures message.
Proof.
  unfold Nest.appendSignatureToMessage, Nest.getKey, bind, gets, deref, ret, throw.
  destruct (find _ (Nest.keyRepo w)) as [k|]; cbn [fst snd].
  2:{ split; [reflexivity | discriminate]. }
  destruct (negb (Js.truthyString (Key.key k))); cbn [fst snd].
  - split; [reflexivity | discriminate].
  - split; [reflexivity |]. intros signed H. injection H as <-.
    split; [now destruct message | eauto].
Qed.

(** ** More on pagination and the message log *)

(** X5.  Whatever the mode and however the indices fall, a page holds at
    most [limit] messages. *)
Theorem page_holds_at_most_limit_messages
        (chatId : string) (from : option string) (page : option Z) (limit : Z)
        (w : Nest.World) :
  0 <= limit ->
  Z.of_nat (length (messagesOf (Nest.getChatMessages chatId from page limit w))) <= limit.
Proof.
  intros Hl. unfold messagesOf, Nest.getChatMessages, Nest.getChat.
  unfold bind, gets, deref, ret, throw.
  destruct (find _ (Nest.chatRepo w)) as [chat|]; cbn [fst]; [| simpl; lia].
  now apply slice_window_length.
Qed.

Lemma page_holds_at_most_limit_messages_witness :
  Z.of_nat (length (messagesOf (Nest.getChatMessages "bob" None (Some 1) 3
                                  Scenario.pagedNode))) <= 3.
Proof.
  apply (page_holds_at_most_limit_messages "bob" None (Some 1) 3 Scenario.pagedNode).
  lia.
Defined.

(** The page returned when neither [page] nor [from] is given. *)
Lemma getChatMessages_newest
        (chatId : string) (limit : Z) (chat : Nest.Chat.t) (w : Nest.World) :
  Nest.getChat chatId w = (Ok (Some chat), w) ->
  0 <= limit ->
  Nest.getChatMessages chatId None None limit w
  = (Ok (negb (Z.of_nat (length (Nest.Chat.messages chat)) - limit =? 0),
         skipn (Z.to_nat
                  (if limit <=? Z.of_nat (length (Nest.Chat.messages chat))
                   then Z.of_nat (length (Nest.Chat.messages chat)) - limit
                   else 2 * Z.of_nat (length (Nest.Chat.messages chat)) - limit))
               (Nest.Chat.messages chat)), w).
Proof.
  intros Hc Hl. unfold Nest.getChatMessages.
  unfold bind at 1. rewrite Hc. run. unfold ret.
  unfold Js.slice, Js.relativeIndex.
  set (l := Nest.Chat.messages chat). set (len := Z.of_nat (length l)).
  replace (len <? 0) with false by (symmetry; apply Z.ltb_ge; lia).
  rewrite Z.min_id.
  destruct (limit <=? len) eqn:E.
  - apply Z.leb_le in E.
    replace (len - limit <? 0) with false by (symmetry; apply Z.ltb_ge; lia).
    rewrite Z.min_l by lia.
    rewrite firstn_all2 by (rewrite length_drop; lia). reflexivity.
  - apply Z.leb_gt in E.
    replace (len - limit <? 0) with true by (symmetry; apply Z.ltb_lt; lia).
    replace (Z.to_nat (Z.max (len + (len - limit)) 0))
      with (Z.to_nat (2 * len - limit)) by lia.
    rewrite firstn_all2 by (rewrite length_drop; lia). reflexivity.
Qed.

(** X6.  The newest page (neither [page] nor [from] given).  When the chat
    has at least [limit] messages the page is the last [limit] of them and
    [hasMore] tells whether older ones remain.  When it has fewer, the
    negative start index is counted from the end: the page starts
    [limit - length] messages into the log (or at its start, once [limit]
    is at least twice the length), so the oldest messages of a short chat
    can be missing from its only page. *)
Theorem newest_page
        (chatId : string) (limit : Z) (chat : Nest.Chat.t) (w : Nest.World) :
  Nest.getChat chatId w = (Ok (Some chat), w) ->
  0 <= limit ->
  Nest.getChatMessages chatId None None limit w
  = (Ok (negb (Z.of_nat (length (Nest.Chat.messages chat)) - limit =? 0),
         skipn (Z.to_nat
                  (if limit <=? Z.of_nat (length (Nest.Chat.messages chat))
                   then Z.of_nat (length (Nest.Chat.messages chat)) - limit
                   else 2 * Z.of_nat (length (Nest.Chat.messages chat)) - limit))
               (Nest.Chat.messages chat)), w).
Proof. exact (getChatMessages_newest chatId limit chat w). Qed.

Lemma newest_page_witness :
  messagesOf (Nest.getChatMessages "bob" None None 7 Scenario.pagedNode)
  = skipn 3 Scenario.five.
Proof.
  unfold messagesOf.
  rewrite (newest_page "bob" 7
             (Nest.Chat.mk "e5" "bob" "bob" [] Scenario.five true "bob" [] false [])
             Scenario.pagedNode); [reflexivity | reflexivity | lia].
Defined.

Section MoreChatService.
Import Nest.

(** Saving a changed copy of the chat a lookup by chat id found: with
    unique entity ids, the lookup finds the saved copy afterwards. *)
Lemma find_saved_chat (chatId : string) (chat chat' : Chat.t) (l : list Chat.t) :
  List.NoDup (List.map Chat.entityId l) ->
  find (fun c => String.eqb (Chat.chatId c) chatId) l = Some chat ->
  Chat.chatId chat' = chatId ->
  Chat.entityId chat' = Chat.entityId chat ->
  find (fun c => String.eqb (Chat.chatId c) chatId) (saveEntity chat' l) = Some chat'.
Proof.
  intros Hnd Hf Hc He. induction l as [|x l IH]; [discriminate |].
  cbn [find] in Hf. cbn [saveEntity]. cbn [List.map] in Hnd.
  apply List.NoDup_cons_iff in Hnd. destruct Hnd as [Hx Hnd].
  destruct (String.eqb (Chat.chatId x) chatId) eqn:E.
  - injection Hf as ->. rewrite He, String.eqb_refl. cbn [find].
    now rewrite Hc, String.eqb_refl.
  - destruct (String.eqb (Chat.entityId x) (Chat.entityId chat')) eqn:E2.
    + exfalso. apply Hx. apply String.eqb_eq in E2. rewrite E2, He.
      apply find_some in Hf. apply in_map. apply Hf.
    + cbn [find]. rewrite E. now apply IH.
Qed.

Lemma getChat_find (chatId : string) (w : World) :
  getChat chatId w
  = (Ok (find (fun c => String.eqb (Chat.chatId c) chatId) (chatRepo w)), w).
Proof. reflexivity. Qed.

End MoreChatService.

(** The newest page of one after [addMessageToChat]. *)
Lemma newest_after_add
        (chatId : string) (chat : Nest.Chat.t) (message : Message.t) (w : Nest.World) :
  List.NoDup (List.map Nest.Chat.entityId (Nest.chatRepo w)) ->
  Nest.getChat chatId w = (Ok (Some chat), w) ->
  fst (Nest.getChatMessages chatId None None 1
         (snd (Nest.addMessageToChat chat message w)))
  = Ok (negb (Z.of_nat (length (Nest.Chat.messages chat)) =? 0), [message]).
Proof.
  intros Hnd Hc. rewrite getChat_find in Hc.
  injection Hc as Hc.
  set (chat' := Nest.Chat.set_messages (Nest.Chat.messages chat ++ [message]) chat).
  assert (Hc' : Nest.getChat chatId (snd (Nest.addMessageToChat chat message w))
                = (Ok (Some chat'), snd (Nest.addMessageToChat chat message w))).
  { rewrite getChat_find. f_equal. f_equal.
    unfold Nest.addMessageToChat, Nest.save. cbn [snd Nest.chatRepo Nest.withChatRepo].
    apply (find_saved_chat chatId chat chat'); auto.
    apply find_some in Hc. destruct Hc as [_ Hc]. now apply String.eqb_eq in Hc. }
  rewrite (getChatMessages_newest chatId 1 chat' _ Hc') by lia.
  cbn [fst]. unfold chat'. cbn [Nest.Chat.messages Nest.Chat.set_messages].
  rewrite length_app. cbn [length].
  set (n := length (Nest.Chat.messages chat)).
  replace (1 <=? Z.of_nat (n + 1)) with true by (symmetry; apply Z.leb_le; lia).
  replace (Z.to_nat (Z.of_nat (n + 1) - 1)) with n by lia.
  replace (Z.of_nat (n + 1) - 1) with (Z.of_nat n) by lia.
  unfold n. now rewrite drop_app_length.
Qed.

(** X9.  Insert and look up: with unique entity ids in the repository, a
    message added to the chat a lookup returned is the newest message of
    that chat, and [hasMore] tells whether the chat had messages before. *)
Theorem added_message_is_the_newest
        (chatId : string) (chat : Nest.Chat.t) (message : Message.t) (w : Nest.World) :
  List.NoDup (List.map Nest.Chat.entityId (Nest.chatRepo w)) ->
  Nest.getChat chatId w = (Ok (Some chat), w) ->
  fst (Nest.getChatMessages chatId None None 1
         (snd (Nest.addMessageToChat chat message w)))
  = Ok (negb (Z.of_nat (length (Nest.Chat.messages chat)) =? 0), [message]).
Proof. exact (newest_after_add chatId chat message w). Qed.

Lemma added_message_is_the_newest_witness :
  fst (Nest.getChatMessages "g1" None None 1
         (snd (Nest.addMessageToChat Scenario.group Scenario.plainFromM1
                 Scenario.adminNode)))
  = Ok (false, [Scenario.plainFromM1]).
Proof.
  apply (added_message_is_the_newest "g1" Scenario.group Scenario.plainFromM1
           Scenario.adminNode).
  - repeat constructor. intros H. destruct H.
  - reflexivity.
Defined.

(** ** More on the inbound controller *)

Section MoreController.
Import Nest.
Context (svc : Services).

(** The message [handleGroupAdmin] returns has the type of the message it
    was given. *)
Lemma handleGroupAdmin_keeps_type (chat : Chat.t) (message m' : Message.t) (w w' : World) :
  handleGroupAdmin svc chat message w = (Ok m', w') ->
  Message.type m' = Message.type message.
Proof.
  unfold handleGroupAdmin, appendSignatureToMessage, getKey.
  unfold bind, gets, deref, ret, throw.
  destruct (verifySignedMessage svc _ _ _ _ w) as [[[|]|e] w1]; cbn [negb];
    try discriminate.
  destruct (find _ (keyRepo w1)) as [k|]; [| discriminate].
  destruct (negb (Js.truthyString (Key.key k)));
    destruct (promiseAll _ _) as [[l|e] w2]; try discriminate;
    intros H; injection H as <- _; reflexivity.
Qed.

End MoreController.

(** X13.  Only CONTACT_REQUEST and SYSTEM have a registered handler: an
    inbound message of any other type is never accepted; the call always
    ends in an exception. *)
Theorem message_type_without_handler_is_never_accepted
        (svc : Nest.Services) (message : Message.t) (offset count : nat)
        (w : Nest.World) :
  Message.type message <> CONTACT_REQUEST ->
  Message.type message <> SYSTEM ->
  exists e,
    fst (Nest.MessageController.handleIncomingMessage svc message offset count w)
    = Throw e.
Proof.
  intros H1 H2. unfold Nest.MessageController.handleIncomingMessage.
  unfold bind at 1.
  destruct (Nest.MessageController.admission svc message offset count w)
    as [[chat|e] w1]; [| eauto].
  unfold Nest.MessageController.dispatch.
  unfold bind at 1. unfold gets at 1. unfold bind at 1.
  destruct chat as [c|]; cbn [deref ret throw]; [| eauto].
  unfold bind at 1.
  destruct (Nest.Chat.isGroup c && String.eqb (Nest.Chat.adminId c) (Nest.userId w1)).
  - destruct (Nest.handleGroupAdmin svc c message w1) as [[m'|e] w2] eqn:Hg; [| eauto].
    apply handleGroupAdmin_keeps_type in Hg.
    unfold bind, Nest.messageStateHandlers. rewrite Hg.
    destruct (Message.type message); cbn; eauto; congruence.
  - unfold bind, ret, Nest.messageStateHandlers.
    destruct (Message.type message); cbn; eauto; congruence.
Qed.

Lemma message_type_without_handler_is_never_accepted_witness :
  exists e,
    fst (Nest.MessageController.handleIncomingMessage
           Scenario.services (Message.set_from "bob" Scenario.readFirst) 0 25
           (Scenario.readerNode []))
    = Throw e.
Proof.
  apply (message_type_without_handler_is_never_accepted
           Scenario.services (Message.set_from "bob" Scenario.readFirst) 0 25
           (Scenario.readerNode []));
    discriminate.
Defined.

(** X14.  A message for a chat that does not exist, from a sender who is
    not on the fetched page of blocked contacts, ends in a [TypeError] when
    the first property of the missing chat is read; no handler runs and the
    store is as before.  This includes a CONTACT_REQUEST of a new sender. *)
Theorem message_for_unknown_chat_ends_in_TypeError
        (svc : Nest.Services) (message : Message.t) (offset count : nat)
        (w : Nest.World) :
  onBlockedPage message offset count w = None ->
  Nest.getChat (Nest.determineChatID svc (Nest.userId w) message) w = (Ok None, w) ->
  Nest.MessageController.handleIncomingMessage svc message offset count w
  = (Throw TypeError, w).
Proof.
  intros Hb Hc.
  unfold Nest.MessageController.handleIncomingMessage,
    Nest.MessageController.admission, Nest.getBlockedContactList.
  unfold onBlockedPage in Hb.
  unfold bind at 1. unfold bind at 1. unfold gets at 1. rewrite Hb.
  unfold bind at 1. unfold gets at 1. unfold bind at 1. rewrite Hc.
  destruct (MessageType_eqb (Message.type message) SYSTEM); reflexivity.
Qed.

Lemma message_for_unknown_chat_ends_in_TypeError_witness :
  Nest.MessageController.handleIncomingMessage
    Scenario.services Scenario.contactRequest 0 25 Scenario.bobNode
  = (Throw TypeError, Scenario.bobNode).
Proof.
  apply (message_for_unknown_chat_ends_in_TypeError
           Scenario.services Scenario.contactRequest 0 25 Scenario.bobNode);
    reflexivity.
Defined.

(** X15.  As admin of a group, a message whose signature does not verify
    is refused with a [BadRequestException]: it is not signed, not
    forwarded to any member and not handed to a handler. *)
Theorem unverified_message_is_not_forwarded
        (svc : Nest.Services) (message : Message.t) (offset count : nat)
        (chat : Nest.Chat.t) (w w1 : Nest.World) :
  Nest.MessageController.admission svc message offset count w = (Ok (Some chat), w) ->
  Nest.Chat.isGroup chat = true ->
  Nest.Chat.adminId chat = Nest.userId w ->
  Nest.verifySignedMessage svc false None
    (find (fun c => String.eqb (Contact.id c) (Message.from message))
          (Nest.Chat.contacts chat))
    message w = (Ok false, w1) ->
  Nest.MessageController.handleIncomingMessage svc message offset count w
  = (Throw (BadRequestException "failed to verify message signature"), w1).
Proof.
  intros Ha Hg Hadm Hv.
  unfold Nest.MessageController.handleIncomingMessage.
  unfold bind at 1. rewrite Ha.
  unfold Nest.MessageController.dispatch.
  unfold bind at 1. unfold gets at 1. unfold bind at 1. cbn [deref ret].
  rewrite Hg, Hadm, String.eqb_refl. cbn [andb].
  unfold bind at 1. unfold Nest.handleGroupAdmin.
  unfold bind at 1. rewrite Hv. reflexivity.
Qed.

(** A chat that is not a group administered by the local node: the
    message goes to the handler of its type as it came in, with nothing
    signed and nothing forwarded in between. *)
Theorem direct_message_is_dispatched_as_received
        (svc : Nest.Services) (message : Message.t) (offset count : nat)
        (chat : Nest.Chat.t) (w : Nest.World) :
  Nest.MessageController.admission svc message offset count w = (Ok (Some chat), w) ->
  Nest.Chat.isGroup chat && String.eqb (Nest.Chat.adminId chat) (Nest.userId w) = false ->
  Nest.MessageController.handleIncomingMessage svc message offset count w
  = match Nest.messageStateHandlers svc (Message.type message) with
    | Some handler => handler message chat w
    | None => (Throw TypeError, w)
    end.
Proof.
  intros Ha Hg.
  unfold Nest.MessageController.handleIncomingMessage.
  unfold bind at 1. rewrite Ha.
  unfold Nest.MessageController.dispatch.
  unfold bind at 1. unfold gets at 1. unfold bind at 1. cbn [deref ret].
  rewrite Hg. unfold bind, ret.
  now destruct (Nest.messageStateHandlers svc (Message.type message)).
Qed.


Lemma unverified_message_is_not_forwarded_witness :
  Nest.MessageController.handleIncomingMessage
    Scenario.services (Message.set_from "stranger" Scenario.plainFromM1) 0 25
    Scenario.adminNode
  = (Throw (BadRequestException "failed to verify message signature"),
     Scenario.adminNode).
Proof.
  apply (unverified_message_is_not_forwarded
           Scenario.services (Message.set_from "stranger" Scenario.plainFromM1) 0 25
           Scenario.group Scenario.adminNode Scenario.adminNode);
    reflexivity.
Defined.

(** ** More on the socket gateway *)

(** A message for which the local node has no chat under
    ["<userId>-<to>"] is dropped: nothing is emitted, nothing is stored, and
    with a private-key record present the handler returns nothing. *)
Theorem gateway_drops_message_without_chat
        (svc : Nest.Services) (message : Message.t) (w : Nest.World) :
  Nest.getChat (Nest.userId w ++ "-" ++ Message.to message)%string w = (Ok None, w) ->
  snd (Nest.ChatGateway.handleIncomingMessage svc message w) = w
  /\ forall k,
      Nest.getKey Private w = (Ok (Some k), w) ->
      fst (Nest.ChatGateway.handleIncomingMessage svc message w) = Ok None.
Proof.
  intros Hc. rewrite getChat_find in Hc. injection Hc as Hc.
  unfold Nest.ChatGateway.handleIncomingMessage, Nest.appendSignatureToMessage,
    Nest.getKey, Nest.getChat.
  unfold bind, gets, deref, ret, throw.
  destruct (find _ (Nest.keyRepo w)) as [k|]; cbn [fst snd].
  - destruct (negb (Js.truthyString (Key.key k)));
      cbn [Message.from Message.to Message.set_from Message.set_signatures];
      rewrite Hc; cbn [fst snd]; split; auto.
  - split; [reflexivity |]. intros k H. discriminate.
Qed.


(** X16.  Send and read back: with a private key and the chat at hand,
    and unique entity ids in the repository, a message other than a READ
    that comes in over the socket is signed under the local user's id,
    emitted once to the connected clients, and is afterwards the newest
    message of the chat. *)
Theorem gateway_message_is_stored_as_newest
        (svc : Nest.Services) (message : Message.t) (chat : Nest.Chat.t)
        (k : Key.t) (w : Nest.World) :
  List.NoDup (List.map Nest.Chat.entityId (Nest.chatRepo w)) ->
  Nest.getKey Private w = (Ok (Some k), w) ->
  Js.truthyString (Key.key k) = true ->
  Nest.getChat (Nest.userId w ++ "-" ++ Message.to message)%string w
  = (Ok (Some chat), w) ->
  Message.type message <> READ ->
  fst (Nest.ChatGateway.handleIncomingMessage svc message w) = Ok None
  /\ Nest.emitted (snd (Nest.ChatGateway.handleIncomingMessage svc message w))
     = Nest.emitted w
         ++ [("message",
              Some (nodeSigned svc k (Message.set_from (Nest.userId w) message)))]
  /\ messagesOf
       (Nest.getChatMessages (Nest.userId w ++ "-" ++ Message.to message)%string
          None None 1
          (snd (Nest.ChatGateway.handleIncomingMessage svc message w)))
     = [nodeSigned svc k (Message.set_from (Nest.userId w) message)].
Proof.
  intros Hnd Hk Ht Hc Hty.
  set (signed := nodeSigned svc k (Message.set_from (Nest.userId w) message)).
  assert (Hrun : Nest.ChatGateway.handleIncomingMessage svc message w
                 = (Ok None,
                    snd (Nest.addMessageToChat chat signed
                           (Nest.withEmitted
                              (Nest.emitted w ++ [("message", Some signed)]) w)))).
  { unfold Nest.ChatGateway.handleIncomingMessage.
    unfold bind at 1. unfold gets at 1. unfold bind at 1.
    rewrite (appendSignatureToMessage_signs svc _ k w Hk Ht).
    fold (nodeSigned svc k (Message.set_from (Nest.userId w) message)). fold signed.
    unfold bind at 1.
    change (Message.from signed) with (Nest.userId w).
    change (Message.to signed) with (Message.to message).
    rewrite Hc. unfold bind at 1. cbn [deref ret].
    replace (Message.set_id (Message.id signed) signed) with signed
      by (unfold signed, nodeSigned; now destruct message).
    replace (MessageType_eqb (Message.type signed) READ) with false
      by (change (Message.type signed) with (Message.type message);
          destruct (Message.type message); try reflexivity; congruence).
    reflexivity. }
  rewrite Hrun. cbn [fst snd]. split; [reflexivity |]. split; [reflexivity |].
  unfold messagesOf.
  rewrite (newest_after_add _ chat signed
             (Nest.withEmitted (Nest.emitted w ++ [("message", Some signed)]) w));
    [reflexivity | exact Hnd |].
  rewrite getChat_find in *. injection Hc as Hc. cbn [Nest.chatRepo Nest.withEmitted].
  now rewrite Hc.
Qed.

(** ** More on the file-backed message service *)

(** Induction over a message and, through them, its replies. *)
Lemma Message_replies_ind (P : Message.t -> Prop) :
  (forall from to body timeStamp id type replies subject signatures updated,
      Forall P replies ->
      P (Message.mk from to body timeStamp id type replies subject signatures updated)) ->
  forall m, P m.
Proof.
  intros H.
  exact (fix go (m : Message.t) : P m :=
           match m with
           | Message.mk from to body timeStamp id type replies subject signatures updated =>
               H from to body timeStamp id type replies subject signatures updated
                 ((fix all (l : list Message.t) : Forall P l :=
                     match l with
                     | [] => @List.Forall_nil _ P
                     | x :: l' => @List.Forall_cons _ P x l' (go x) (all l')
                     end) replies)
           end).
Qed.

(** X17.  Parsing a parsed message changes nothing more, and no parsed
    message is a FILE_UPLOAD: the upload has become a FILE. *)
Theorem parseMessage_is_idempotent (m : Message.t) :
  Legacy.parseMessage (Legacy.parseMessage m) = Legacy.parseMessage m
  /\ Message.type (Legacy.parseMessage m) <> FILE_UPLOAD.
Proof.
  induction m as [from to body timeStamp id type replies subject signatures updated IH]
    using Message_replies_ind.
  assert (Hr : List.map Legacy.parseMessage (List.map Legacy.parseMessage replies)
               = List.map Legacy.parseMessage replies).
  { induction IH as [|x l [Hx _] Hl IHl]; cbn [List.map]; [reflexivity |].
    now rewrite Hx, IHl. }
  destruct type; cbn [Legacy.parseMessage Message.type]; rewrite ?Hr;
    (split; [reflexivity | discriminate]).
Qed.

Section MoreEdits.
Import Legacy.

(** A lookup by predicate finds the element behind a prefix that does not
    satisfy it. *)
Lemma find_split {A : Type} (p : A -> bool) (l : list A) (x : A) :
  find p l = Some x ->
  exists pre post,
    l = pre ++ x :: post /\ Forall (fun y => p y = false) pre /\ p x = true.
Proof.
  induction l as [|a l IH]; cbn [find]; [discriminate |].
  destruct (p a) eqn:E.
  - intros H. injection H as ->. exists [], l. auto.
  - intros H. destruct (IH H) as (pre & post & -> & Hpre & Hx).
    exists (a :: pre), post. auto.
Qed.

Lemma find_middle {A : Type} (p : A -> bool) (pre post : list A) (x : A) :
  Forall (fun y => p y = false) pre -> p x = true ->
  find p (pre ++ x :: post) = Some x.
Proof.
  intros Hpre Hx. induction Hpre as [|y l Hy Hl IH]; cbn [app find].
  - now rewrite Hx.
  - now rewrite Hy.
Qed.

(** What [findIndex] and the write at its index do to an array in which
    [find] has an answer. *)
Lemma found_then_written {A : Type} (p : A -> bool) (l : list A) (x v : A) :
  find p l = Some x ->
  Js.at_ l (Js.findIndex p l) = Some x
  /\ (p v = true -> find p (Js.setAt l (Js.findIndex p l) v) = Some v).
Proof.
  intros H. destruct (find_split p l x H) as (pre & post & -> & Hpre & Hx).
  rewrite (findIndex_skip p pre x post Hpre Hx). split.
  - apply at_middle.
  - intros Hv. rewrite setAt_middle. now apply find_middle.
Qed.

(** A write at the index found leaves every key on which the written
    element agrees with those satisfying the predicate. *)
Lemma map_setAt_found {A B : Type} (f : A -> B) (p : A -> bool) (l : list A) (v : A) :
  (forall x, p x = true -> f x = f v) ->
  List.map f (Js.setAt l (Js.findIndex p l) v) = List.map f l.
Proof.
  intros Hf. destruct (findIndex_cases p l) as [H | H].
  - now rewrite H.
  - destruct (findIndex_split p l _ eq_refl H) as (pre & x & post & E & Hlen & Hpre & Hx).
    rewrite <- Hlen. rewrite E at 1. rewrite setAt_middle. rewrite E.
    rewrite !map_app. cbn [List.map]. now rewrite (Hf x Hx).
Qed.

(** An edit that writes a chat writes one with the same chat id and the
    same sequence of message ids. *)
Lemma editEffect_keeps_ids (now : Z) (m : Message.t) (chat c' : Chat.t) :
  editEffect now m chat = Persist c' ->
  Chat.chatId c' = Chat.chatId chat
  /\ List.map Message.id (Chat.messages c') = List.map Message.id (Chat.messages chat).
Proof.
  unfold editEffect.
  destruct (truthySubject (Message.subject m)).
  - destruct (_ =? -1); [discriminate |].
    destruct (Js.at_ (Chat.messages chat) _) as [target|] eqn:Ht; [| discriminate].
    destruct (_ =? -1); [discriminate |].
    destruct (Js.at_ (Message.replies target) _) as [reply|]; [| discriminate].
    intros H. injection H as <-. split; [reflexivity |].
    cbn [Chat.messages Chat.set_messages].
    destruct (findIndex_cases (isSubject (Message.subject m)) (Chat.messages chat))
      as [Hi | Hi].
    + now rewrite Hi.
    + destruct (findIndex_split _ _ _ eq_refl Hi)
        as (pre & x & post & E & Hlen & Hpre & Hx).
      assert (Hxt : x = target).
      { rewrite <- Hlen in Ht. rewrite E in Ht at 1. rewrite at_middle in Ht.
        congruence. }
      subst x. rewrite <- Hlen. rewrite E at 1. rewrite setAt_middle. rewrite E.
      rewrite !map_app. reflexivity.
  - destruct (Message.type m); try (intros H; injection H as <-; auto).
    + destruct (Message.body m); intros H; injection H as <-; auto.
      split; [reflexivity |]. cbn [Chat.messages Chat.set_messages].
      apply map_setAt_found. intros x Hx. now apply String.eqb_eq in Hx.
    + set (P := fun mes : Message.t => String.eqb (Message.id mes) (Message.id m)).
      destruct (Js.at_ (Chat.messages chat) _) as [target|] eqn:Ht; [| discriminate].
      intros H. injection H as <-. split; [reflexivity |].
      cbn [Chat.messages Chat.set_messages].
      destruct (findIndex_cases P (Chat.messages chat)) as [Hi | Hi].
      * now rewrite Hi.
      * destruct (findIndex_split _ _ _ eq_refl Hi)
          as (pre & x & post & E & Hlen & Hpre & Hx).
        assert (Hxt : x = target).
        { rewrite <- Hlen in Ht. rewrite E in Ht at 1. rewrite at_middle in Ht.
          congruence. }
        subst x. rewrite <- Hlen. rewrite E at 1. rewrite setAt_middle. rewrite E.
        rewrite !map_app. reflexivity.
Qed.

End MoreEdits.

(** X18.  Edits and deletions supersede, they never remove or reorder: for
    a chat stored under its own id, after [editMessage] (of any type, at
    any time, successful or not) the chat is still there with the same
    sequence of message ids, and every other chat is as it was. *)
Theorem editMessage_keeps_the_log_and_the_other_chats
        (now : Z) (chatId : string) (m : Message.t) (chat : Legacy.Chat.t)
        (w : Legacy.World) :
  Legacy.chats w !! chatId = Some chat ->
  Legacy.Chat.chatId chat = chatId ->
  (exists chat',
      Legacy.chats (snd (Legacy.editMessage now chatId m w)) !! chatId = Some chat'
      /\ List.map Message.id (Legacy.Chat.messages chat')
         = List.map Message.id (Legacy.Chat.messages chat))
  /\ forall other,
      other <> chatId ->
      Legacy.chats (snd (Legacy.editMessage now chatId m w)) !! other
      = Legacy.chats w !! other.
Proof.
  intros Hc Hid. rewrite editMessage_outcome, Hc.
  destruct (editEffect now m chat) as [c' | | e] eqn:He; cbn [applyEffect snd].
  - destruct (editEffect_keeps_ids now m chat c' He) as [Hk Hids].
    cbn [Legacy.chats Legacy.withChats]. rewrite Hk, Hid. split.
    + exists c'. split; [apply lookup_insert_eq | exact Hids].
    + intros other Ho. apply lookup_insert_ne. congruence.
  - split; [exists chat; auto | auto].
  - split; [exists chat; auto | auto].
Qed.

Lemma editMessage_keeps_the_log_and_the_other_chats_witness :
  exists chat',
    Legacy.chats (snd (Legacy.editMessage 5 "c1" Scenario.editOfReply Scenario.fileNode))
      !! "c1" = Some chat'
    /\ List.map Message.id (Legacy.Chat.messages chat') = ["t1"].
Proof.
  apply (editMessage_keeps_the_log_and_the_other_chats
           5 "c1" Scenario.editOfReply Scenario.fileChat Scenario.fileNode);
    reflexivity.
Defined.

Section MoreEditLookups.
Import Legacy.

Lemma set_messages_same (chat : Chat.t) :
  Chat.set_messages (Chat.messages chat) chat = chat.
Proof. now destruct chat. Qed.

End MoreEditLookups.

(** X19.  A DELETE without subject whose target is in the chat leaves a
    tombstone: the message looked up under that id afterwards is the
    target with its body overwritten by the DELETE's body and its type set
    to DELETE; its replies, signatures and place in the log are kept. *)
Theorem deleted_message_becomes_a_tombstone
        (now : Z) (chatId : string) (m target : Message.t) (chat : Legacy.Chat.t)
        (w : Legacy.World) :
  Legacy.chats w !! chatId = Some chat ->
  Legacy.Chat.chatId chat = chatId ->
  Legacy.truthySubject (Message.subject m) = false ->
  Message.type m = DELETE ->
  find (fun mes => String.eqb (Message.id mes) (Message.id m)) (Legacy.Chat.messages chat)
  = Some target ->
  exists chat',
    Legacy.editMessage now chatId m w
    = (Ok tt, Legacy.withChats (<[chatId := chat']> (Legacy.chats w)) w)
    /\ find (fun mes => String.eqb (Message.id mes) (Message.id m))
            (Legacy.Chat.messages chat')
       = Some (Message.set_type DELETE (Message.set_body (Message.body m) target)).
Proof.
  intros Hc Hid Hsub Hty Hf. rewrite editMessage_outcome, Hc.
  unfold editEffect. rewrite Hsub, Hty.
  destruct (found_then_written _ _ _
              (Message.set_type DELETE (Message.set_body (Message.body m) target)) Hf)
    as [Hat Hw].
  rewrite Hat. cbn [applyEffect Legacy.Chat.chatId Legacy.Chat.set_messages].
  rewrite Hid. eexists. split; [reflexivity |].
  cbn [Legacy.Chat.messages Legacy.Chat.set_messages]. apply Hw.
  apply find_some in Hf. apply Hf.
Qed.

Lemma deleted_message_becomes_a_tombstone_witness :
  exists chat',
    Legacy.editMessage 9 "c1" Cases.deleteTop Scenario.fileNode
    = (Ok tt, Legacy.withChats (<["c1" := chat']> (Legacy.chats Scenario.fileNode))
                               Scenario.fileNode)
    /\ find (fun mes => String.eqb (Message.id mes) "t1") (Legacy.Chat.messages chat')
       = Some (Message.set_type DELETE (Message.set_body (BString "removed") Scenario.top)).
Proof.
  apply (deleted_message_becomes_a_tombstone
           9 "c1" Cases.deleteTop Scenario.top Scenario.fileChat Scenario.fileNode);
    reflexivity.
Defined.

(** X20.  An EDIT without subject whose target is in the chat replaces the
    whole stored message by the parsed body of the EDIT: the message looked
    up under that id afterwards is the replacement, with the replacement's
    own replies and signatures. *)
Theorem edited_message_is_replaced_by_the_parsed_body
        (now : Z) (chatId : string) (m raw target : Message.t)
        (chat : Legacy.Chat.t) (w : Legacy.World) :
  Legacy.chats w !! chatId = Some chat ->
  Legacy.Chat.chatId chat = chatId ->
  Legacy.truthySubject (Message.subject m) = false ->
  Message.type m = EDIT ->
  Message.body m = BMessage raw ->
  find (fun mes => String.eqb (Message.id mes) (Message.id (Legacy.parseMessage raw)))
       (Legacy.Chat.messages chat)
  = Some target ->
  exists chat',
    Legacy.editMessage now chatId m w
    = (Ok tt, Legacy.withChats (<[chatId := chat']> (Legacy.chats w)) w)
    /\ find (fun mes => String.eqb (Message.id mes) (Message.id (Legacy.parseMessage raw)))
            (Legacy.Chat.messages chat')
       = Some (Legacy.parseMessage raw).
Proof.
  intros Hc Hid Hsub Hty Hb Hf. rewrite editMessage_outcome, Hc.
  unfold editEffect. rewrite Hsub, Hty, Hb.
  destruct (found_then_written _ _ _ (Legacy.parseMessage raw) Hf) as [_ Hw].
  cbn [applyEffect Legacy.Chat.chatId Legacy.Chat.set_messages].
  rewrite Hid. eexists. split; [reflexivity |].
  cbn [Legacy.Chat.messages Legacy.Chat.set_messages]. apply Hw.
  apply String.eqb_refl.
Qed.

Lemma edited_message_is_replaced_by_the_parsed_body_witness :
  exists chat',
    Legacy.editMessage 9 "c1" Cases.editTop Scenario.fileNode
    = (Ok tt, Legacy.withChats (<["c1" := chat']> (Legacy.chats Scenario.fileNode))
                               Scenario.fileNode)
    /\ find (fun mes => String.eqb (Message.id mes) "t1") (Legacy.Chat.messages chat')
       = Some (Scenario.message "bob" "me" "t1" STRING "hi!" 110).
Proof.
  apply (edited_message_is_replaced_by_the_parsed_body
           9 "c1" Cases.editTop (Scenario.message "bob" "me" "t1" STRING "hi!" 110)
           Scenario.top Scenario.fileChat Scenario.fileNode);
    reflexivity.
Defined.

(** X21.  An edit of a reply whose parent and reply are in the chat: the
    reply looked up afterwards, under the parent named by the subject, has
    the new body and the time of the edit as its [updated] stamp, and is
    otherwise the reply that was there. *)
Theorem edited_reply_has_the_new_body_and_stamp
        (now : Z) (chatId : string) (m target reply : Message.t)
        (chat : Legacy.Chat.t) (w : Legacy.World) :
  Legacy.chats w !! chatId = Some chat ->
  Legacy.Chat.chatId chat = chatId ->
  Legacy.truthySubject (Message.subject m) = true ->
  find (Legacy.isSubject (Message.subject m)) (Legacy.Chat.messages chat) = Some target ->
  find (fun r => String.eqb (Message.id r) (Message.id m)) (Message.replies target)
  = Some reply ->
  exists chat' target',
    Legacy.editMessage now chatId m w
    = (Ok tt, Legacy.withChats (<[chatId := chat']> (Legacy.chats w)) w)
    /\ find (Legacy.isSubject (Message.subject m)) (Legacy.Chat.messages chat')
       = Some target'
    /\ find (fun r => String.eqb (Message.id r) (Message.id m)) (Message.replies target')
       = Some (Message.set_updated (Some now)
                 (Message.set_body (Message.body m) reply)).
Proof.
  intros Hc Hid Hsub Hft Hfr. rewrite editMessage_outcome, Hc.
  unfold editEffect. rewrite Hsub.
  set (reply' := Message.set_updated (Some now) (Message.set_body (Message.body m) reply)).
  destruct (found_then_written _ _ _ reply' Hfr) as [Hat_r Hw_r].
  set (target' :=
         Message.set_replies
           (Js.setAt (Message.replies target)
              (Js.findIndex (fun r => String.eqb (Message.id r) (Message.id m))
                            (Message.replies target)) reply') target).
  destruct (found_then_written _ _ _ target' Hft) as [Hat_t Hw_t].
  assert (Hi : (Js.findIndex (Legacy.isSubject (Message.subject m))
                  (Legacy.Chat.messages chat) =? -1) = false).
  { apply Z.eqb_neq. intros E. rewrite E in Hat_t. discriminate. }
  assert (Hj : (Js.findIndex (fun r => String.eqb (Message.id r) (Message.id m))
                  (Message.replies target) =? -1) = false).
  { apply Z.eqb_neq. intros E. rewrite E in Hat_r. discriminate. }
  rewrite Hi, Hat_t, Hj, Hat_r.
  cbn [applyEffect Legacy.Chat.chatId Legacy.Chat.set_messages]. rewrite Hid.
  eexists. exists target'. split; [reflexivity |].
  cbn [Legacy.Chat.messages Legacy.Chat.set_messages]. split.
  - apply Hw_t. apply find_some in Hft. destruct Hft as [_ Hft].
    unfold target'. revert Hft. unfold Legacy.isSubject.
    now destruct (Message.subject m).
  - unfold target'. cbn [Message.replies Message.set_replies]. apply Hw_r.
    apply find_some in Hfr. apply Hfr.
Qed.

Lemma edited_reply_has_the_new_body_and_stamp_witness :
  exists chat' target',
    Legacy.editMessage 9 "c1" Scenario.editOfReply Scenario.fileNode
    = (Ok tt, Legacy.withChats (<["c1" := chat']> (Legacy.chats Scenario.fileNode))
                               Scenario.fileNode)
    /\ find (Legacy.isSubject (Some "t1")) (Legacy.Chat.messages chat') = Some target'
    /\ find (fun r => String.eqb (Message.id r) "rp1") (Message.replies target')
       = Some (Message.set_updated (Some 9)
                 (Message.set_body (BString "edited") Scenario.reply)).
Proof.
  apply (edited_reply_has_the_new_body_and_stamp
           9 "c1" Scenario.editOfReply Scenario.top Scenario.reply
           Scenario.fileChat Scenario.fileNode);
    reflexivity.
Defined.

(** ** More on read receipts of the file-backed service *)

(** X24.  The read cursor never moves back in time: when the target
    recorded for the sender is a message of the chat (stored under its own
    id), then after any receipt of that sender the chat has the same
    messages, and a recorded target that is a message of the chat is not
    older than the one recorded before. *)
Theorem read_cursor_never_moves_back
        (determineChatId : Message.t -> string) (message : Message.t)
        (body previous : string) (old : Message.t) (chat : Legacy.Chat.t)
        (w : Legacy.World) :
  Legacy.chats w !! determineChatId message = Some chat ->
  Legacy.Chat.chatId chat = determineChatId message ->
  Message.bodyString message = Some body ->
  Legacy.Chat.read chat !! Message.from message = Some previous ->
  find (fun m => String.eqb (Message.id m) previous) (Legacy.Chat.messages chat)
  = Some old ->
  exists chat',
    Legacy.chats (snd (Legacy.handleRead determineChatId message w))
      !! determineChatId message = Some chat'
    /\ Legacy.Chat.messages chat' = Legacy.Chat.messages chat
    /\ forall target new,
        Legacy.Chat.read chat' !! Message.from message = Some target ->
        find (fun m => String.eqb (Message.id m) target) (Legacy.Chat.messages chat')
        = Some new ->
        Message.timeStamp old <= Message.timeStamp new.
Proof.
  intros Hc Hid Hb Hr Ho.
  rewrite (handleRead_outcome determineChatId message body chat w Hc Hb).
  destruct (staleRead chat (Message.from message) body) eqn:Hs; cbn [snd].
  - exists chat. split; [exact Hc |]. split; [reflexivity |].
    intros target new Ht Hn. rewrite Hr in Ht. injection Ht as <-.
    rewrite Ho in Hn. injection Hn as <-. lia.
  - cbn [Legacy.chats Legacy.withEvents Legacy.withChats]. rewrite Hid.
    eexists. split; [apply lookup_insert_eq |]. split; [reflexivity |].
    cbn [Legacy.Chat.read Legacy.Chat.set_read Legacy.Chat.messages].
    rewrite setProperty_insert by (right; rewrite Hr; eauto).
    intros target new Ht Hn. rewrite lookup_insert_eq in Ht. injection Ht as <-.
    revert Hs. unfold staleRead. rewrite Hr, Ho, Hn.
    intros Hs. apply Z.ltb_ge in Hs. exact Hs.
Qed.

Lemma read_cursor_never_moves_back_witness :
  exists chat',
    Legacy.chats
      (snd (Legacy.handleRead Cases.determineChatId Scenario.readFirst
              (Legacy.withChats
                 {["bob" := Legacy.Chat.set_read {["me" := "msg-2"]} Cases.readChat]}
                 Cases.readNode)))
      !! "bob" = Some chat'
    /\ Legacy.Chat.messages chat' = [Scenario.first; Scenario.second]
    /\ forall target new,
        Legacy.Chat.read chat' !! "me" = Some target ->
        find (fun m => String.eqb (Message.id m) target) (Legacy.Chat.messages chat')
        = Some new ->
        200 <= Message.timeStamp new.
Proof.
  apply (read_cursor_never_moves_back
           Cases.determineChatId Scenario.readFirst "msg-1" "msg-2" Scenario.second
           (Legacy.Chat.set_read {["me" := "msg-2"]} Cases.readChat)
           (Legacy.withChats
              {["bob" := Legacy.Chat.set_read {["me" := "msg-2"]} Cases.readChat]}
              Cases.readNode));
    reflexivity.
Defined.

(** X25.  A receipt whose target is not a message of the chat is handled
    all the same: no comparison takes place, the unknown id is assigned to
    the sender's entry of the [read] object (an assignment that writes the
    entry, except for the sender id "__proto__" on an object without an own
    entry of that name, which it leaves as it is), the chat is persisted
    and every connected socket is sent the receipt. *)
Theorem receipt_for_unknown_message_is_recorded
        (determineChatId : Message.t -> string) (message : Message.t)
        (body : string) (chat : Legacy.Chat.t) (w : Legacy.World) :
  Legacy.chats w !! determineChatId message = Some chat ->
  Message.bodyString message = Some body ->
  find (fun m => String.eqb (Message.id m) body) (Legacy.Chat.messages chat) = None ->
  Legacy.handleRead determineChatId message w
  = (Ok tt,
     Legacy.withEvents
       (Legacy.events w
          ++ List.map (fun connection => (connection, "message", message))
                      (Legacy.connections w))
       (Legacy.withChats
          (<[Legacy.Chat.chatId chat :=
               Legacy.Chat.set_read
                 (Legacy.setProperty (Message.from message) body (Legacy.Chat.read chat))
                 chat]>
             (Legacy.chats w)) w))
  /\ (Message.from message <> "__proto__" ->
      Legacy.setProperty (Message.from message) body (Legacy.Chat.read chat)
        !! Message.from message = Some body).
Proof.
  intros Hc Hb Hn. split.
  2:{ intros Hne. rewrite setProperty_insert by (left; exact Hne).
      apply lookup_insert_eq. }
  rewrite (handleRead_outcome determineChatId message body chat w Hc Hb).
  unfold staleRead. rewrite Hn.
  now destruct (match Legacy.Chat.read chat !! Message.from message with
                | Some r => find _ (Legacy.Chat.messages chat)
                | None => None
                end).
Qed.

Lemma receipt_for_unknown_message_is_recorded_witness :
  Legacy.Chat.read
    <$> Legacy.chats
          (snd (Legacy.handleRead Cases.determineChatId
                  (Message.set_body (BString "no-such-id") Scenario.readFirst)
                  Cases.readNode)) !! "bob"
  = Some {["me" := "no-such-id"]}.
Proof.
  rewrite (proj1 (receipt_for_unknown_message_is_recorded
                    Cases.determineChatId
                    (Message.set_body (BString "no-such-id") Scenario.readFirst)
                    "no-such-id" Cases.readChat Cases.readNode
                    eq_refl eq_refl eq_refl));
    reflexivity.
Defined.

(** ** The properties above at concrete stores *)

Lemma fetched_public_key_is_used_and_stored_without_owner_witness :
  Nest.verifyMessageSignature Cases.fetchingServices Scenario.alice
    (nodeSigned Scenario.services (Key.mk (Some "bob") "key-of-bob" Private)
       (nodeSigned Scenario.services (Key.mk (Some "alice") "key-of-alice" Private)
          Scenario.hello))
    (Nest.createBase64Signature Scenario.services Scenario.hello "key-of-alice")
    Cases.staleKeyNode
  = (Ok true,
     Nest.withKeyRepo
       [Key.mk (Some "alice") "" Public; Key.mk None "key-of-alice" Public]
       Cases.staleKeyNode)
  /\ fst (Nest.getPublicKeyByUserID "alice"
            (Nest.withKeyRepo
               [Key.mk (Some "alice") "" Public; Key.mk None "key-of-alice" Public]
               Cases.staleKeyNode))
     = Ok (Some (Key.mk (Some "alice") "" Public)).
Proof.
  destruct (fetched_public_key_is_used_and_stored_without_owner
              Cases.fetchingServices Scenario.alice
              (nodeSigned Scenario.services (Key.mk (Some "bob") "key-of-bob" Private)
                 (nodeSigned Scenario.services
                    (Key.mk (Some "alice") "key-of-alice" Private) Scenario.hello))
              [Nest.createBase64Signature Scenario.services
                 (nodeSigned Scenario.services
                    (Key.mk (Some "alice") "key-of-alice" Private) Scenario.hello)
                 "key-of-bob"]
              []
              (Nest.createBase64Signature Scenario.services Scenario.hello "key-of-alice")
              "key-of-alice" (Key.mk (Some "alice") "" Public) Cases.staleKeyNode)
    as [Hrun Hfind]; try reflexivity.
  - discriminate.
  - repeat constructor.
  - split; [exact Hrun | exact (Hfind "alice")].
Defined.

Lemma gateway_message_is_stored_as_newest_witness :
  messagesOf
    (Nest.getChatMessages "me-bob" None None 1
       (snd (Nest.ChatGateway.handleIncomingMessage Scenario.services Cases.toBob
               Cases.gatewayNode)))
  = [nodeSigned Scenario.services (Key.mk (Some "me") "key-of-me" Private)
       (Message.set_from "me" Cases.toBob)].
Proof.
  apply (gateway_message_is_stored_as_newest
           Scenario.services Cases.toBob Cases.gatewayChat
           (Key.mk (Some "me") "key-of-me" Private) Cases.gatewayNode);
    try reflexivity.
  - repeat constructor. intros H. destruct H.
  - discriminate.
Defined.

Lemma handleRead_order_independent_witness :
  Legacy.Chat.read
    <$> Legacy.chats
          (snd (Legacy.handleRead Cases.determineChatId Scenario.readSecond
                  (snd (Legacy.handleRead Cases.determineChatId Scenario.readFirst
                          Cases.readNode)))) !! "bob"
  = Some (<["me" := "msg-2"]> ∅).
Proof.
  apply (handleRead_order_independent
           Cases.determineChatId Scenario.readFirst Scenario.readSecond
           "msg-1" "msg-2" Scenario.first Scenario.second Cases.readChat Cases.readNode);
    try reflexivity.
  discriminate.
Defined.

Lemma offset_page_within_range_witness :
  Nest.getChatMessages "bob" None (Some 1) 2 Scenario.pagedNode
  = (Ok (true, firstn 2 (skipn 1 Scenario.five)), Scenario.pagedNode).
Proof.
  apply (offset_page_within_range "bob" None 1 2
           (Nest.Chat.mk "e5" "bob" "bob" [] Scenario.five true "bob" [] false [])
           Scenario.pagedNode);
    try reflexivity; try discriminate; lia.
Defined.

Lemma cursor_page_is_before_from_witness :
  In (Scenario.message "bob" "me" "a1" STRING "1" 11) (firstn 2 Scenario.five).
Proof.
  apply (cursor_page_is_before_from "bob" "a2" 50
           (Nest.Chat.mk "e5" "bob" "bob" [] Scenario.five true "bob" [] false [])
           Scenario.pagedNode (Scenario.message "bob" "me" "a1" STRING "1" 11));
    try reflexivity.
  - vm_compute. discriminate.
  - vm_compute. right. left. reflexivity.
Defined.


Lemma reply_edit_of_absent_target_changes_nothing_witness :
  Legacy.editMessage 9 "c1" (Message.set_id "no-such-reply" Scenario.editOfReply)
    Scenario.fileNode
  = (Ok tt, Scenario.fileNode).
Proof.
  apply (reply_edit_of_absent_target_changes_nothing
           9 "c1" (Message.set_id "no-such-reply" Scenario.editOfReply)
           Scenario.fileChat Scenario.fileNode);
    try reflexivity.
  right. exists Scenario.top. split; reflexivity.
Defined.

Lemma blocked_sender_on_page_rejected_witness :
  Nest.MessageController.handleIncomingMessage
    Scenario.services Scenario.contactRequest 0 25 Scenario.blockingNode
  = (Throw (ForbiddenException "blocked"), Scenario.blockingNode).
Proof.
  apply (blocked_sender_on_page_rejected
           Scenario.services Scenario.contactRequest 0 25 Scenario.blockingNode
           (Nest.BlockedContact.mk "mallory"));
    reflexivity.
Defined.

(** ** The rest of the chat service *)

Section MoreChats.
Import Nest.

(** With unique keys, two elements with the same key are the same. *)
Lemma NoDup_map_inj {A B : Type} (f : A -> B) (l : list A) (x y : A) :
  List.NoDup (List.map f l) -> In x l -> In y l -> f x = f y -> x = y.
Proof.
  induction l as [|a l IH]; cbn [List.map]; [contradiction |].
  intros Hnd Hx Hy E. apply List.NoDup_cons_iff in Hnd. destruct Hnd as [Ha Hnd].
  destruct Hx as [-> | Hx], Hy as [-> | Hy]; auto.
  - exfalso. apply Ha. rewrite E. now apply in_map.
  - exfalso. apply Ha. rewrite <- E. now apply in_map.
Qed.

(** A lookup is not affected by removing elements it would not return. *)
Lemma find_filter_irrelevant {A : Type} (p q : A -> bool) (l : list A) :
  (forall x, In x l -> q x = false -> p x = false) ->
  find p (List.filter q l) = find p l.
Proof.
  induction l as [|a l IH]; intros H; cbn [List.filter find]; [reflexivity |].
  destruct (q a) eqn:Eq; cbn [find].
  - destruct (p a); [reflexivity |]. apply IH. intros x Hx. apply H. now right.
  - rewrite (H a (or_introl eq_refl) Eq). apply IH. intros x Hx. apply H. now right.
Qed.

(** The elements of a page are elements of the list. *)
Lemma In_page {A : Type} (offset count : nat) (l : list A) (x : A) :
  In x (firstn count (skipn offset l)) -> In x l.
Proof.
  intros H. rewrite <- (firstn_skipn offset l). apply in_or_app. right.
  rewrite <- (firstn_skipn count (skipn offset l)). apply in_or_app. now left.
Qed.

End MoreChats.

(** X10.  Removing a contact from the chat a lookup returned (entity ids
    being unique): the chat found afterwards has the other contacts in
    their order and none with the removed id, so a group fan-out no longer
    reaches it; its messages and its admin id are untouched, also when the
    removed contact was the admin. *)
Theorem removed_contact_is_gone
        (chatId contactId : string) (chat : Nest.Chat.t) (w : Nest.World) :
  List.NoDup (List.map Nest.Chat.entityId (Nest.chatRepo w)) ->
  Nest.getChat chatId w = (Ok (Some chat), w) ->
  exists chat',
    fst (Nest.getChat chatId
           (snd (ChatService.removeContactFromChat chat contactId w)))
    = Ok (Some chat')
    /\ Nest.Chat.contacts chat'
       = List.filter (fun c => negb (String.eqb (Contact.id c) contactId))
                     (Nest.Chat.contacts chat)
    /\ (forall userId c,
           In c (receivingContacts userId chat') -> Contact.id c <> contactId)
    /\ Nest.Chat.messages chat' = Nest.Chat.messages chat
    /\ Nest.Chat.adminId chat' = Nest.Chat.adminId chat.
Proof.
  intros Hnd Hc. rewrite getChat_find in Hc. injection Hc as Hc.
  eexists. split.
  - rewrite getChat_find. cbn [fst]. f_equal.
    unfold ChatService.removeContactFromChat, Nest.save.
    cbn [snd Nest.chatRepo Nest.withChatRepo].
    apply (find_saved_chat chatId chat); auto.
    apply find_some in Hc. destruct Hc as [_ Hc]. now apply String.eqb_eq in Hc.
  - cbn [Nest.Chat.contacts Nest.Chat.set_contacts Nest.Chat.messages Nest.Chat.adminId].
    repeat split.
    intros userId c Hin. unfold receivingContacts in Hin.
    cbn [Nest.Chat.contacts Nest.Chat.set_contacts] in Hin.
    apply filter_In in Hin. destruct Hin as [Hin _].
    apply filter_In in Hin. destruct Hin as [_ Hin].
    apply negb_true_iff in Hin. now apply String.eqb_neq in Hin.
Qed.

Lemma removed_contact_is_gone_witness :
  exists chat',
    fst (Nest.getChat "g1"
           (snd (ChatService.removeContactFromChat Scenario.group "m2"
                   Scenario.adminNode)))
    = Ok (Some chat')
    /\ Nest.Chat.contacts chat' = [Scenario.m0; Scenario.m1]
    /\ (forall userId c,
           In c (receivingContacts userId chat') -> Contact.id c <> "m2")
    /\ Nest.Chat.messages chat' = []
    /\ Nest.Chat.adminId chat' = "m0".
Proof.
  apply (removed_contact_is_gone "g1" "m2" Scenario.group Scenario.adminNode).
  - repeat constructor. intros H. destruct H.
  - reflexivity.
Defined.

(** X11.  Deleting a chat that a lookup finds (chat ids and entity ids
    being unique): the call returns, the chat is no longer found, and every
    other chat is found as before. *)
Theorem deleted_chat_is_gone
        (chatID : string) (chat : Nest.Chat.t) (w : Nest.World) :
  List.NoDup (List.map Nest.Chat.chatId (Nest.chatRepo w)) ->
  List.NoDup (List.map Nest.Chat.entityId (Nest.chatRepo w)) ->
  Nest.getChat chatID w = (Ok (Some chat), w) ->
  fst (ChatService.deleteChat chatID w) = ChatService.Removed
  /\ fst (Nest.getChat chatID (snd (ChatService.deleteChat chatID w))) = Ok None
  /\ forall other,
      other <> chatID ->
      fst (Nest.getChat other (snd (ChatService.deleteChat chatID w)))
      = fst (Nest.getChat other w).
Proof.
  intros Hcid Heid Hc. unfold ChatService.deleteChat. rewrite Hc.
  rewrite getChat_find in Hc. injection Hc as Hc.
  pose proof (find_some _ _ Hc) as [Hin Hid]. apply String.eqb_eq in Hid.
  cbn [fst snd]. split; [reflexivity |].
  split.
  - rewrite getChat_find. cbn [fst Nest.chatRepo Nest.withChatRepo]. f_equal.
    destruct (find _ (ChatService.removeEntity _ _)) as [x|] eqn:Hx; [| reflexivity].
    exfalso. apply find_some in Hx. destruct Hx as [Hx Hxid].
    apply String.eqb_eq in Hxid. unfold ChatService.removeEntity in Hx.
    apply filter_In in Hx. destruct Hx as [Hx Hne].
    assert (x = chat)
      by (apply (NoDup_map_inj Nest.Chat.chatId (Nest.chatRepo w)); congruence).
    subst x. now rewrite String.eqb_refl in Hne.
  - intros other Ho. rewrite !getChat_find.
    cbn [fst Nest.chatRepo Nest.withChatRepo]. f_equal.
    unfold ChatService.removeEntity. apply find_filter_irrelevant.
    intros x Hx Hq. apply negb_false_iff, String.eqb_eq in Hq.
    assert (x = chat)
      by (apply (NoDup_map_inj Nest.Chat.entityId (Nest.chatRepo w)); auto).
    subst x. apply String.eqb_neq. congruence.
Qed.

Lemma deleted_chat_is_gone_witness :
  fst (Nest.getChat "g1" (snd (ChatService.deleteChat "g1" Scenario.adminNode)))
  = Ok None.
Proof.
  apply (deleted_chat_is_gone "g1" Scenario.group Scenario.adminNode).
  - repeat constructor. intros H. destruct H.
  - repeat constructor. intros H. destruct H.
  - reflexivity.
Defined.

(** The page of accepted chats holds stored chats that are accepted,
    [count] of them at most, and all of them when it starts at 0 and
    [count] is not below their number. *)
Theorem accepted_chats_page (offset count : nat) (w : Nest.World) :
  (forall chats,
      fst (ChatService.getAcceptedChats offset count w) = Ok chats ->
      (length chats <= count)%nat
      /\ forall c, In c chats ->
                   In c (Nest.chatRepo w) /\ Nest.Chat.acceptedChat c = true)
  /\ (offset = 0%nat ->
      (length (List.filter Nest.Chat.acceptedChat (Nest.chatRepo w)) <= count)%nat ->
      fst (ChatService.getAcceptedChats offset count w)
      = Ok (List.filter Nest.Chat.acceptedChat (Nest.chatRepo w))).
Proof.
  unfold ChatService.getAcceptedChats, gets. cbn [fst]. split.
  - intros chats H. injection H as <-. split.
    + rewrite length_take. lia.
    + intros c Hc. apply In_page in Hc. now apply filter_In in Hc.
  - intros -> Hl. cbn [skipn]. now rewrite firstn_all2.
Qed.

(** ** Blocking and unblocking over the socket *)

Section Blocking.
Import SocketService.

Lemma existsb_eqb_In (id : string) (l : list string) :
  existsb (String.eqb id) l = true <-> In id l.
Proof.
  rewrite existsb_exists. split.
  - intros (x & Hx & E). apply String.eqb_eq in E. now subst.
  - intros H. exists id. split; [exact H | apply String.eqb_refl].
Qed.

(** The block handler in one step. *)
Lemma onBlockChat_outcome (id : string) (w : World) :
  onBlockChat id w
  = (Ok tt,
     if existsb (String.eqb id) (blocklist w) then w
     else mkWorld (blocklist w ++ [id]) (connections w)
                  (sent w ++ List.map (fun connection => (connection, "chat_blocked", id))
                                      (connections w))).
Proof.
  unfold onBlockChat, getBlocklist, persistBlocklist, sendEventToConnectedSockets,
    bind, gets, modify, ret.
  now destruct (existsb (String.eqb id) (blocklist w)).
Qed.

End Blocking.

(** X26.  Blocking a chat: afterwards the id is on the block list, a list
    without duplicates stays without duplicates, and blocking the same id
    again changes nothing and sends no event. *)
Theorem blocking_adds_the_id_once (id : string) (w : SocketService.World) :
  In id (SocketService.blocklist (snd (SocketService.onBlockChat id w)))
  /\ (List.NoDup (SocketService.blocklist w) ->
      List.NoDup (SocketService.blocklist (snd (SocketService.onBlockChat id w))))
  /\ SocketService.onBlockChat id (snd (SocketService.onBlockChat id w))
     = (Ok tt, snd (SocketService.onBlockChat id w)).
Proof.
  rewrite !onBlockChat_outcome. cbn [snd].
  destruct (existsb (String.eqb id) (SocketService.blocklist w)) eqn:E.
  - rewrite E. split; [now apply existsb_eqb_In |]. split; auto.
  - cbn [SocketService.blocklist].
    assert (Hin : In id (SocketService.blocklist w ++ [id]))
      by (apply in_or_app; right; now left).
    split; [exact Hin |]. split.
    + intros Hnd. apply List.NoDup_app; [exact Hnd | |].
      * repeat constructor. intros [].
      * intros x Hx [<- | []]. apply existsb_eqb_In in Hx. congruence.
    + apply existsb_eqb_In in Hin. now rewrite Hin.
Qed.

(** X27.  Unblocking: afterwards the name is not on the block list, every
    other entry is kept in its order, and no event is sent; unblocking an
    id right after blocking it, when it was not blocked before, gives back
    the block list from before. *)
Theorem unblocking_removes_the_name (name : string) (w : SocketService.World) :
  SocketService.blocklist (snd (SocketService.onUnblockChat name w))
  = List.filter (fun b => negb (String.eqb b name)) (SocketService.blocklist w)
  /\ ~ In name (SocketService.blocklist (snd (SocketService.onUnblockChat name w)))
  /\ SocketService.sent (snd (SocketService.onUnblockChat name w))
     = SocketService.sent w
  /\ (~ In name (SocketService.blocklist w) ->
      SocketService.blocklist
        (snd (SocketService.onUnblockChat name
                (snd (SocketService.onBlockChat name w))))
      = SocketService.blocklist w).
Proof.
  rewrite onBlockChat_outcome.
  unfold SocketService.onUnblockChat, SocketService.getBlocklist,
    SocketService.persistBlocklist, bind, gets, modify.
  cbn [snd SocketService.blocklist SocketService.sent].
  split; [reflexivity |]. split.
  - intros H. apply filter_In in H. destruct H as [_ H].
    now rewrite String.eqb_refl in H.
  - split; [reflexivity |]. intros Hn.
    replace (existsb (String.eqb name) (SocketService.blocklist w)) with false
      by (symmetry; apply not_true_iff_false; intros H;
          now apply existsb_eqb_In in H).
    cbn [SocketService.blocklist]. rewrite List.filter_app.
    cbn [List.filter]. rewrite String.eqb_refl. cbn [negb]. rewrite app_nil_r.
    apply List.forallb_filter_id. apply forallb_forall. intros x Hx.
    apply negb_true_iff, String.eqb_neq. congruence.
Qed.

(** ** The key service of key/service/key.service.ts *)

(** A lookup in a concatenation looks in the first part first. *)
Lemma find_app {A : Type} (p : A -> bool) (l1 l2 : list A) :
  find p (l1 ++ l2)
  = match find p l1 with
    | Some x => Some x
    | None => find p l2
    end.
Proof.
  induction l1 as [|a l1 IH]; cbn [app find]; [reflexivity |].
  now destruct (p a).
Qed.

(** X28.  Store and look up: on a node without a public key for the local
    user, the key stored by [updateKey] as Public is the one [getPublicKey]
    returns, in base64 and under the local user's id; a key stored as
    Private is not returned as the public key. *)
Theorem stored_public_key_is_found
        {Bytes : Type} (uint8ToBase64 : Bytes -> string) (pk : Bytes) (w : Nest.World) :
  fst (KeyService.getPublicKey w) = Ok None ->
  fst (KeyService.getPublicKey (snd (KeyService.updateKey uint8ToBase64 pk Public w)))
  = Ok (Some (Key.mk (Some (Nest.userId w)) (uint8ToBase64 pk) Public))
  /\ fst (KeyService.getPublicKey (snd (KeyService.updateKey uint8ToBase64 pk Private w)))
     = Ok None.
Proof.
  unfold KeyService.getPublicKey, KeyService.updateKey, bind, gets, modify, ret.
  cbn [fst snd Nest.userId Nest.keyRepo Nest.withKeyRepo].
  intros H. injection H as H.
  rewrite !find_app, H. unfold Key.userIdEquals.
  cbn [find Key.userId Key.keyType KeyType_eqb].
  rewrite String.eqb_refl. cbn [andb]. auto.
Qed.

Lemma stored_public_key_is_found_witness :
  fst (KeyService.getPublicKey
         (snd (KeyService.updateKey (fun pk : string => pk) "cHVibGlj" Public
                 Scenario.aliceNode)))
  = Ok (Some (Key.mk (Some "alice") "cHVibGlj" Public)).
Proof.
  apply (stored_public_key_is_found (fun pk : string => pk) "cHVibGlj"
           Scenario.aliceNode).
  reflexivity.
Defined.

(** ** The user service *)

Section Users.
Import UserService.
Context (newId : list User.t -> string) (storedDate : Z -> Z).

Lemma find_saved_user (uid : string) (user user' : User.t) (l : list User.t) :
  List.NoDup (List.map User.entityId l) ->
  find (fun u => String.eqb (User.userId u) uid) l = Some user ->
  User.userId user' = uid ->
  User.entityId user' = User.entityId user ->
  find (fun u => String.eqb (User.userId u) uid) (saveEntity user' l) = Some user'.
Proof.
  intros Hnd Hf Hc He. induction l as [|x l IH]; [discriminate |].
  cbn [find] in Hf. cbn [saveEntity]. cbn [List.map] in Hnd.
  apply List.NoDup_cons_iff in Hnd. destruct Hnd as [Hx Hnd].
  destruct (String.eqb (User.userId x) uid) eqn:E.
  - injection Hf as ->. rewrite He, String.eqb_refl. cbn [find].
    now rewrite Hc, String.eqb_refl.
  - destruct (String.eqb (User.entityId x) (User.entityId user')) eqn:E2.
    + exfalso. apply Hx. apply String.eqb_eq in E2. rewrite E2, He.
      apply find_some in Hf. apply in_map. apply Hf.
    + cbn [find]. rewrite E. now apply IH.
Qed.

(** [getUserData] returns the first record of the local user, which it
    creates when there is none; afterwards the store holds that record, a
    created one as the date field gives it back. *)
Lemma getUserData_outcome (now : Z) (w : World) :
  exists user,
    getUserData newId storedDate now w
    = (Ok user,
       match find (fun u => String.eqb (User.userId u) (userId w)) (userRepo w) with
       | Some _ => w
       | None => mkWorld (userId w) (userRepo w ++ [stored storedDate user])
       end)
    /\ User.userId user = userId w
    /\ find (fun u => String.eqb (User.userId u) (userId w))
            (userRepo (snd (getUserData newId storedDate now w)))
       = Some (match find (fun u => String.eqb (User.userId u) (userId w)) (userRepo w) with
               | Some _ => user
               | None => stored storedDate user
               end)
    /\ userId (snd (getUserData newId storedDate now w)) = userId w
    /\ (find (fun u => String.eqb (User.userId u) (userId w)) (userRepo w) = None ->
        user = User.mk (newId (userRepo w)) (userId w)
                       "Exploring the new DigitalTwin" "default" now).
Proof.
  unfold getUserData, addUserData, bind, gets, ret.
  destruct (find _ (userRepo w)) as [u|] eqn:Hf; cbn [snd].
  - exists u. repeat split; auto.
    + apply find_some in Hf. destruct Hf as [_ Hf]. now apply String.eqb_eq in Hf.
    + discriminate.
  - eexists. split; [reflexivity |]. cbn [User.userId userRepo userId User.entityId].
    repeat split.
    rewrite find_app, Hf. cbn [find stored User.userId]. now rewrite String.eqb_refl.
Qed.

End Users.

(** X29.  Get or create: [getUserData] always returns a record of the
    configured user, creating the default one when the store has none.  A
    second call creates nothing: it leaves the store as the first call left
    it and returns the record of the store, which is the one the first call
    returned, except that the last-seen time of a record the first call
    created ([now]) comes back as the date field gives it ([storedDate now]). *)
Theorem getUserData_creates_at_most_once
        (newId : list UserService.User.t -> string) (storedDate : Z -> Z)
        (now later : Z) (w : UserService.World) :
  exists user,
    fst (UserService.getUserData newId storedDate now w) = Ok user
    /\ UserService.User.userId user = UserService.userId w
    /\ UserService.getUserData newId storedDate later
         (snd (UserService.getUserData newId storedDate now w))
       = (Ok (match find (fun u => String.eqb (UserService.User.userId u)
                                              (UserService.userId w))
                         (UserService.userRepo w) with
              | Some _ => user
              | None => UserService.stored storedDate user
              end),
          snd (UserService.getUserData newId storedDate now w))
    /\ (find (fun u => String.eqb (UserService.User.userId u) (UserService.userId w))
             (UserService.userRepo w) = None ->
        user = UserService.User.mk (newId (UserService.userRepo w)) (UserService.userId w)
                 "Exploring the new DigitalTwin" "default" now).
Proof.
  destruct (getUserData_outcome newId storedDate now w)
    as (user & Hrun & Hid & Hf & Hu & Hnew).
  exists user. split; [now rewrite Hrun |]. split; [exact Hid |].
  split; [| exact Hnew].
  set (w1 := snd (UserService.getUserData newId storedDate now w)) in *.
  unfold UserService.getUserData, bind, gets, ret. now rewrite Hu, Hf.
Qed.

(** X30.  Update and read back: with unique entity ids, and a repository
    that gives a new entity an id not in use, the record [getUserData]
    returns after [updateUserData] carries the status and the avatar that
    were passed in, under the configured user id; its last-seen time is the
    one passed in as the date field gives it back. *)
Theorem updated_user_data_is_read_back
        (newId : list UserService.User.t -> string) (storedDate : Z -> Z)
        (now later : Z) (userData : UserService.User.t) (w : UserService.World) :
  List.NoDup (List.map UserService.User.entityId (UserService.userRepo w)) ->
  ~ In (newId (UserService.userRepo w))
       (List.map UserService.User.entityId (UserService.userRepo w)) ->
  exists user,
    fst (UserService.getUserData newId storedDate later
           (snd (UserService.updateUserData newId storedDate now userData w)))
    = Ok user
    /\ UserService.User.userId user = UserService.userId w
    /\ UserService.User.status user = UserService.User.status userData
    /\ UserService.User.avatar user = UserService.User.avatar userData
    /\ UserService.User.lastSeen user = storedDate (UserService.User.lastSeen userData).
Proof.
  intros Hnd Hfresh.
  destruct (getUserData_outcome newId storedDate now w)
    as (u & Hrun & Hid & Hf & Hu & Hnew).
  set (u' := UserService.User.mk (UserService.User.entityId u)
               (UserService.User.userId u) (UserService.User.status userData)
               (UserService.User.avatar userData) (UserService.User.lastSeen userData)).
  set (u0 := match find (fun u => String.eqb (UserService.User.userId u)
                                             (UserService.userId w))
                        (UserService.userRepo w) with
             | Some _ => u
             | None => UserService.stored storedDate u
             end) in *.
  assert (Hid0 : UserService.User.entityId u0 = UserService.User.entityId u).
  { unfold u0. now destruct (find _ (UserService.userRepo w)). }
  assert (Hnd1 : List.NoDup
                   (List.map UserService.User.entityId
                      (UserService.userRepo
                         (snd (UserService.getUserData newId storedDate now w))))).
  { rewrite Hrun. cbn [snd].
    destruct (find _ (UserService.userRepo w)) eqn:E; [exact Hnd |].
    cbn [UserService.userRepo]. rewrite map_app. cbn [List.map].
    rewrite (Hnew eq_refl). cbn [UserService.stored UserService.User.entityId].
    apply List.NoDup_app; [exact Hnd | repeat constructor; intros [] |].
    intros a Ha [<- | []]. contradiction. }
  assert (Hupd : UserService.updateUserData newId storedDate now userData w
                 = UserService.save storedDate u'
                     (snd (UserService.getUserData newId storedDate now w))).
  { unfold UserService.updateUserData. unfold bind at 1.
    destruct (UserService.getUserData newId storedDate now w) as [r w1] eqn:E.
    injection Hrun as -> _. reflexivity. }
  rewrite Hupd. clear Hupd Hrun Hnew.
  set (w1 := snd (UserService.getUserData newId storedDate now w)) in *. clearbody w1.
  unfold UserService.save at 1. cbn [snd].
  exists (UserService.stored storedDate u'). split.
  - unfold UserService.getUserData, bind, gets, ret.
    cbn [UserService.userId UserService.userRepo]. rewrite Hu.
    rewrite (find_saved_user (UserService.userId w) u0 (UserService.stored storedDate u')
               _ Hnd1 Hf).
    + reflexivity.
    + exact Hid.
    + now rewrite Hid0.
  - repeat split. exact Hid.
Qed.

(** The date field of the witness gives the instant 1001 back as 1000
    and every other instant as it is. *)
Lemma updated_user_data_is_read_back_witness :
  exists user,
    fst (UserService.getUserData (fun _ => "01H")
           (fun t => if t =? 1001 then 1000 else t) 2
           (snd (UserService.updateUserData (fun _ => "01H")
                   (fun t => if t =? 1001 then 1000 else t) 1
                   (UserService.User.mk "" "" "away" "cat.png" 1001)
                   (UserService.mkWorld "me" []))))
    = Ok user
    /\ UserService.User.userId user = "me"
    /\ UserService.User.status user = "away"
    /\ UserService.User.avatar user = "cat.png"
    /\ UserService.User.lastSeen user = 1000.
Proof.
  apply (updated_user_data_is_read_back (fun _ => "01H")
           (fun t => if t =? 1001 then 1000 else t) 1 2
           (UserService.User.mk "" "" "away" "cat.png" 1001)
           (UserService.mkWorld "me" [])).
  - constructor.
  - intros [].
Defined.
